(** * Deployment polling core of ai-builder-cli

    A shallow embedding of the submit / poll / infer code of the two
    integrations, [OpenShiftDeployment] and [RHODSIntegration]:
    - JavaScript values as [JSON.parse] produces them, with the few
      operators the code applies to them;
    - async methods as a state-and-exception monad over a [world] that
      holds the instance's [Map] and the trace of requests and sleeps;
    - the remote side as an oracle [env] giving the outcome of each
      request in the order the requests are issued.

    Console output is not part of the model, except that a value put
    into a printed line is converted to a string where the code does it,
    since the conversion can throw. Request headers and bodies are not
    part of it either: the oracle quantifies over every outcome a request
    can have. *)

From stdpp Require Import base strings gmap list pretty.
From Stdlib Require Import ZArith Lia.

Local Open Scope Z_scope.
Local Set Warnings "-register-all".

(** ** JavaScript values *)

(** A number is kept as the text the engine prints for it: the code
    never computes with a number of a response, it only prints it or
    tests it for truth, and zero is the one number that prints as [0]
    (JSON has no NaN). An object keeps one entry per key, as it is after
    [JSON.parse]. [VUndefined] is what reading an absent property gives;
    it does not occur inside a parsed body. *)
Inductive value : Type :=
| VUndefined
| VNull
| VBool (b : bool)
| VNum (shown : string)
| VStr (s : string)
| VArr (items : list value)
| VObj (fields : list (string * value)).

(** The two error classes that occur: [new Error(msg)] and the engine's
    [TypeError], on reading a property of [null] or [undefined] and on
    converting to a string an object that has no usable [toString]. *)
Inductive error : Type :=
| Error (msg : string)
| TypeError (msg : string).

Definition message (e : error) : string :=
  match e with Error m | TypeError m => m end.

(** The properties the code reads. None of them is a property of a
    string, number, boolean or array, so reading one there gives
    [undefined]. *)
Inductive prop : Type := p_status | p_error | p_endpoint | p_success | p_result.

Definition prop_name (p : prop) : string :=
  match p with
  | p_status => "status"
  | p_error => "error"
  | p_endpoint => "endpoint"
  | p_success => "success"
  | p_result => "result"
  end.

Fixpoint field (key : string) (fields : list (string * value)) : value :=
  match fields with
  | [] => VUndefined
  | (k, v) :: rest => if String.eqb k key then v else field key rest
  end.

(** The own properties of a value; only an object has some that the code
    reads. *)
Definition fields_of (v : value) : list (string * value) :=
  match v with
  | VObj fields => fields
  | _ => []
  end.

(** [v.p]: V8's wording of the TypeError. *)
Definition get (v : value) (p : prop) : error + value :=
  match v with
  | VUndefined =>
      inl (TypeError ("Cannot read properties of undefined (reading '"
                      +:+ prop_name p +:+ "')"))
  | VNull =>
      inl (TypeError ("Cannot read properties of null (reading '"
                      +:+ prop_name p +:+ "')"))
  | VObj fields => inr (field (prop_name p) fields)
  | _ => inr VUndefined
  end.

(** [v === 'lit'] *)
Definition is_str (v : value) (lit : string) : bool :=
  match v with
  | VStr s => String.eqb s lit
  | _ => false
  end.

(** ToBoolean *)
Definition truthy (v : value) : bool :=
  match v with
  | VUndefined | VNull => false
  | VBool b => b
  | VNum shown => negb (String.eqb shown "0")
  | VStr s => negb (String.eqb s "")
  | VArr _ | VObj _ => true
  end.

(** [a || b] *)
Definition or_else (a b : value) : value := if truthy a then a else b.

(** ToString, as a template literal or [new Error(v)] applies it.
    The conversion of an object goes through its [toString] property: a
    parsed object that has a key of that name has it as a value that
    cannot be called, and the conversion throws. An array converts its
    items, [null] and [undefined] excepted. *)
Fixpoint has_key (key : string) (fields : list (string * value)) : bool :=
  match fields with
  | [] => false
  | (k, _) :: rest => String.eqb k key || has_key key rest
  end.

Fixpoint convertible (v : value) : bool :=
  match v with
  | VObj fields => negb (has_key "toString" fields)
  | VArr items =>
      (fix all (l : list value) : bool :=
         match l with
         | [] => true
         | x :: rest => convertible x && all rest
         end) items
  | _ => true
  end.

(** The string of a value that converts. *)
Fixpoint to_text (v : value) : string :=
  match v with
  | VUndefined => "undefined"
  | VNull => "null"
  | VBool true => "true"
  | VBool false => "false"
  | VNum shown => shown
  | VStr s => s
  | VArr items =>
      (fix join (l : list value) : string :=
         let item x := match x with
                       | VUndefined | VNull => ""
                       | _ => to_text x
                       end in
         match l with
         | [] => ""
         | [x] => item x
         | x :: rest => item x +:+ "," +:+ join rest
         end) items
  | VObj _ => "[object Object]"
  end.

Definition unconvertible : error :=
  TypeError "Cannot convert object to primitive value".

Definition to_string (v : value) : error + string :=
  if convertible v then inr (to_text v) else inl unconvertible.

(** ** The outside world *)

(** What [JSON.parse(body)] does: throw a SyntaxError with a message, or
    give a value. *)
Inductive parsed : Type :=
| BadJson (msg : string)
| Json (v : value).

(** Outcome of one HTTP exchange as the request wrappers see it: the
    request's ['error'] event (or a synchronous throw while building the
    request), or a complete response. *)
Inductive raw : Type :=
| NetError (e : error)
| Reply (statusCode : Z) (body : parsed).

Inductive event : Type :=
| EvRequest (method path : string)
| EvSleep (ms : Z).

(** [http i] is the outcome of the [i]-th request issued (from 0);
    [clock i] is what [new Date().toISOString()] gives once [i] events
    have happened. *)
Record env : Type := Env {
  http : nat -> raw;
  clock : nat -> string
}.

Definition is_request (e : event) : bool :=
  match e with EvRequest _ _ => true | EvSleep _ => false end.

Fixpoint requests (tr : list event) : nat :=
  match tr with
  | [] => 0%nat
  | e :: rest => ((if is_request e then 1 else 0) + requests rest)%nat
  end.

(** The instance state: its [Map] from name to record, and the events so
    far, oldest first. *)
Record world (R : Type) : Type := World {
  store : gmap string R;
  trace : list event
}.
Arguments World {R} _ _.
Arguments store {R} _.
Arguments trace {R} _.

Definition record_event {R} (e : event) (w : world R) : world R :=
  World (store w) (trace w ++ [e]).

(** ** Async methods: state and exceptions *)

Inductive result (A : Type) : Type :=
| Ret (a : A)
| Throw (e : error).
Arguments Ret {A} _.
Arguments Throw {A} _.

Definition M (R A : Type) : Type := world R -> result A * world R.

Definition ret {R A} (a : A) : M R A := fun w => (Ret a, w).

Definition throw {R A} (e : error) : M R A := fun w => (Throw e, w).

Definition bind {R A B} (m : M R A) (k : A -> M R B) : M R B :=
  fun w =>
    match m w with
    | (Ret a, w') => k a w'
    | (Throw e, w') => (Throw e, w')
    end.

(** [try { m } catch (error) { h error }] *)
Definition try_catch {R A} (m : M R A) (h : error -> M R A) : M R A :=
  fun w =>
    match m w with
    | (Ret a, w') => (Ret a, w')
    | (Throw e, w') => h e w'
    end.

Declare Scope js_scope.
Delimit Scope js_scope with js.
Notation "x <- m ;; k" := (bind m (fun x => k))
  (at level 100, m at next level, right associativity) : js_scope.
Notation "m ;;; k" := (bind m (fun _ => k))
  (at level 100, right associativity) : js_scope.
Local Open Scope js_scope.

(** [await this.sleep(ms)] *)
Definition sleep {R} (ms : Z) : M R unit :=
  fun w => (Ret tt, record_event (EvSleep ms) w).

(** [v.p] inside a method body *)
Definition read {R} (v : value) (p : prop) : M R value :=
  fun w =>
    match get v p with
    | inl e => (Throw e, w)
    | inr x => (Ret x, w)
    end.

(** [`${v}`] inside a method body, also where the string only goes to
    the console. *)
Definition show {R} (v : value) : M R string :=
  fun w =>
    match to_string v with
    | inl e => (Throw e, w)
    | inr text => (Ret text, w)
    end.

(** The promise a request wrapper returns: the request is issued, and
    [settle] turns the exchange's outcome into a rejection or a value. *)
Definition exchange {R} (net : env) (settle : raw -> error + value)
    (method path : string) : M R value :=
  fun w =>
    let r := http net (requests (trace w)) in
    let w' := record_event (EvRequest method path) w in
    match settle r with
    | inl e => (Throw e, w')
    | inr v => (Ret v, w')
    end.

Definition is_2xx (statusCode : Z) : bool :=
  (200 <=? statusCode) && (statusCode <? 300).

(** [new Error(response.error || `HTTP ${res.statusCode}`)], evaluated
    inside the wrapper's [try]: a TypeError, of reading [error] off
    [null] or of converting it, is left in [inl]. The status code is the
    three digits of the status line. *)
Definition http_error (response : value) (statusCode : Z) : error + error :=
  match get response p_error with
  | inl te => inl te
  | inr e =>
      match to_string (or_else e (VStr ("HTTP " +:+ pretty statusCode))) with
      | inl te => inl te
      | inr text => inr (Error text)
      end
  end.

(** ** OpenShiftDeployment *)

Module OpenShiftDeployment.

(** A value of [this.deployments]. *)
Record deployment : Type := Deployment {
  endpoint : value;
  status : string;
  deployed_at : string
}.

Record modelConfig : Type := ModelConfig {
  name : string;
  type : value;
  framework : value;
  modelPath : value;
  requirements : value
}.

Section Instance.
Context (net : env).

(** [makeRequest]: the ['error'] handler rejects with the error; the
    ['end'] handler parses the body and resolves on a 2xx code,
    rejects otherwise; whatever throws inside its [try] is rejected
    as "Invalid response". *)
Definition settle (r : raw) : error + value :=
  match r with
  | NetError e => inl e
  | Reply statusCode (BadJson msg) => inl (Error ("Invalid response: " +:+ msg))
  | Reply statusCode (Json response) =>
      if is_2xx statusCode then inr response
      else match http_error response statusCode with
           | inl te => inl (Error ("Invalid response: " +:+ message te))
           | inr e => inl e
           end
  end.

Definition makeRequest (method path : string) : M deployment value :=
  exchange net settle method path.

Definition getDeploymentStatus (modelName : string) : M deployment value :=
  try_catch (makeRequest "GET" ("/status/" +:+ modelName))
    (fun error =>
       ret (VObj [("status", VStr "unknown"); ("error", VStr (message error))])).

(** The [try] block of one loop iteration. [Some status] is
    [return status]; [None] falls through to the next iteration. The
    lines printed on the way convert [status.endpoint] and
    [status.status]. *)
Definition inspect (delay : Z) (modelName : string) : M deployment (option value) :=
  status <- getDeploymentStatus modelName ;;
  s <- read status p_status ;;
  if is_str s "ready" then
    ep <- read status p_endpoint ;;
    _ <- show ep ;;
    ret (Some status)
  else if is_str s "failed" then
    e <- read status p_error ;;
    text <- show e ;;
    throw (Error ("Deployment failed: " +:+ text))
  else
    _ <- show s ;;
    sleep delay ;;; ret None.

(** [for (let attempt = ...; attempt <= maxAttempts; attempt++)] with
    [remaining = maxAttempts + 1 - attempt] iterations to go, then the
    [throw] after the loop. *)
Fixpoint attempts (maxAttempts : nat) (delay : Z) (modelName : string)
    (remaining attempt : nat) : M deployment value :=
  match remaining with
  | O => throw (Error "Deployment timeout")
  | S remaining' =>
      r <- try_catch (inspect delay modelName)
             (fun error =>
                if (attempt =? maxAttempts)%nat then throw error
                else sleep delay ;;; ret None) ;;
      match r with
      | Some status => ret status
      | None => attempts maxAttempts delay modelName remaining' (S attempt)
      end
  end.

(** The loop with its two constants as parameters. *)
Definition poll (maxAttempts : nat) (delay : Z) (modelName : string)
    : M deployment value :=
  attempts maxAttempts delay modelName maxAttempts 1.

Definition monitorDeployment (modelName : string) : M deployment value :=
  poll 30 5000 modelName.

Definition now : M deployment string :=
  fun w => (Ret (clock net (length (trace w))), w).

Definition deployments_set (key : string) (d : deployment) : M deployment unit :=
  fun w => (Ret tt, World (<[key := d]> (store w)) (trace w)).

Definition deployments_get (key : string) : M deployment (option deployment) :=
  fun w => (Ret (store w !! key), w).

(** The [try] covers everything up to the call of
    [monitorDeployment], whose promise is returned without being
    awaited; the [catch] logs and rethrows. Once the record is set, the
    endpoint is printed. *)
Definition deployModel (modelConfig : modelConfig) : M deployment value :=
  try_catch
    (response <- makeRequest "POST" "/deploy" ;;
     ok <- read response p_success ;;
     if truthy ok then
       ep <- read response p_endpoint ;;
       t <- now ;;
       deployments_set (name modelConfig)
         {| endpoint := ep; status := "deploying"; deployed_at := t |} ;;;
       printed <- read response p_endpoint ;;
       _ <- show printed ;;
       ret tt
     else
       e <- read response p_error ;;
       text <- show (or_else e (VStr "Deployment failed")) ;;
       throw (Error text))
    (fun error => throw error) ;;;
  monitorDeployment (name modelConfig).

Definition runInference (modelName : string) (data : value) : M deployment value :=
  try_catch
    (deployment <- deployments_get modelName ;;
     match deployment with
     | None => throw (Error ("Model " +:+ modelName +:+ " not deployed"))
     | Some _ =>
         response <- makeRequest "POST" "/infer" ;;
         _ <- read response p_result ;;
         ret response
     end)
    (fun error => throw error).

End Instance.

End OpenShiftDeployment.

(** ** RHODSIntegration *)

Module RHODSIntegration.

(** A value of [this.models]. *)
Record model : Type := Model {
  id : value;
  status : string;
  endpoint : value;
  created_at : string
}.

Section Instance.
Context (net : env).

(** [makeRHODSRequest]: as [makeRequest], except that what throws
    inside the ['end'] handler's [try] resolves to a
    [{success: false, error}] object. *)
Definition invalid (msg : string) : value :=
  VObj [("success", VBool false); ("error", VStr ("Invalid response: " +:+ msg))].

Definition settle (r : raw) : error + value :=
  match r with
  | NetError e => inl e
  | Reply statusCode (BadJson msg) => inr (invalid msg)
  | Reply statusCode (Json response) =>
      if is_2xx statusCode then inr response
      else match http_error response statusCode with
           | inl te => inr (invalid (message te))
           | inr e => inl e
           end
  end.

Definition makeRHODSRequest (method path : string) : M model value :=
  exchange net settle method path.

Definition getDeploymentStatus (modelName : string) : M model value :=
  try_catch (makeRHODSRequest "GET" ("/api/models/" +:+ modelName +:+ "/status"))
    (fun error =>
       ret (VObj [("status", VStr "unknown"); ("error", VStr (message error))])).

Definition inspect (delay : Z) (modelName : string) : M model (option value) :=
  status <- getDeploymentStatus modelName ;;
  s <- read status p_status ;;
  if is_str s "ready" || is_str s "succeeded" then
    ep <- read status p_endpoint ;;
    _ <- show ep ;;
    ret (Some status)
  else if is_str s "failed" || is_str s "error" then
    e <- read status p_error ;;
    text <- show (or_else e (VStr "Unknown error")) ;;
    throw (Error ("Deployment failed: " +:+ text))
  else
    _ <- show s ;;
    sleep delay ;;; ret None.

Fixpoint attempts (maxAttempts : nat) (delay : Z) (modelName : string)
    (remaining attempt : nat) : M model value :=
  match remaining with
  | O => throw (Error "Deployment timeout")
  | S remaining' =>
      r <- try_catch (inspect delay modelName)
             (fun error =>
                if (attempt =? maxAttempts)%nat then throw error
                else sleep delay ;;; ret None) ;;
      match r with
      | Some status => ret status
      | None => attempts maxAttempts delay modelName remaining' (S attempt)
      end
  end.

Definition poll (maxAttempts : nat) (delay : Z) (modelName : string)
    : M model value :=
  attempts maxAttempts delay modelName maxAttempts 1.

Definition monitorDeployment (modelName : string) : M model value :=
  poll 30 10000 modelName.

End Instance.

End RHODSIntegration.

(** ** Vocabulary of the statements *)

(** The world after further events. *)
Definition after {R} (w : world R) (tr : list event) : world R :=
  World (store w) (trace w ++ tr).

(** [n] rounds of one request followed by one sleep of [delay]. *)
Fixpoint rounds (request : event) (delay : Z) (n : nat) : list event :=
  match n with
  | O => []
  | S n' => request :: EvSleep delay :: rounds request delay n'
  end.

(** What [getDeploymentStatus] hands to the loop for an exchange that
    ended as [r]. *)
Definition unknown (e : error) : value :=
  VObj [("status", VStr "unknown"); ("error", VStr (message e))].

Definition observe (settle : raw -> error + value) (r : raw) : value :=
  match settle r with
  | inl e => unknown e
  | inr v => v
  end.

(** What the [try] block of an iteration does with a status value:
    return it, throw, or log, sleep and fall through. *)
Inductive verdict : Type :=
| Done (status : value)
| Raise (e : error)
| Pending.

Definition openshift_judge (status : value) : verdict :=
  match get status p_status with
  | inl te => Raise te
  | inr s =>
      if is_str s "ready" then
        match get status p_endpoint with
        | inl te => Raise te
        | inr ep =>
            match to_string ep with
            | inl te => Raise te
            | inr _ => Done status
            end
        end
      else if is_str s "failed" then
        match get status p_error with
        | inl te => Raise te
        | inr e =>
            match to_string e with
            | inl te => Raise te
            | inr text => Raise (Error ("Deployment failed: " +:+ text))
            end
        end
      else
        match to_string s with
        | inl te => Raise te
        | inr _ => Pending
        end
  end.

Definition rhods_judge (status : value) : verdict :=
  match get status p_status with
  | inl te => Raise te
  | inr s =>
      if is_str s "ready" || is_str s "succeeded" then
        match get status p_endpoint with
        | inl te => Raise te
        | inr ep =>
            match to_string ep with
            | inl te => Raise te
            | inr _ => Done status
            end
        end
      else if is_str s "failed" || is_str s "error" then
        match get status p_error with
        | inl te => Raise te
        | inr e =>
            match to_string (or_else e (VStr "Unknown error")) with
            | inl te => Raise te
            | inr text => Raise (Error ("Deployment failed: " +:+ text))
            end
        end
      else
        match to_string s with
        | inl te => Raise te
        | inr _ => Pending
        end
  end.

(** The status request of each integration. *)
Definition openshift_query (modelName : string) : event :=
  EvRequest "GET" ("/status/" +:+ modelName).

Definition rhods_query (modelName : string) : event :=
  EvRequest "GET" ("/api/models/" +:+ modelName +:+ "/status").

(** The value of the [status] property is the literal [lit]. *)
Definition has_status (v : value) (lit : string) : Prop :=
  exists s, get v p_status = inr s /\ is_str s lit = true.

(** The property [p] of [v] can be read and printed. *)
Definition prints (v : value) (p : prop) : Prop :=
  exists x, get v p = inr x /\ convertible x = true.

(** The verdict on the outcome of a status request, per integration. *)
Definition openshift_verdict (r : raw) : verdict :=
  openshift_judge (observe OpenShiftDeployment.settle r).

Definition rhods_verdict (r : raw) : verdict :=
  rhods_judge (observe RHODSIntegration.settle r).

(** The outcome of the request of attempt [k + 1] of a session that
    starts in [w]. *)
Definition reply {R} (net : env) (w : world R) (k : nat) : raw :=
  http net (requests (trace w) + k).

(** A request that failed: transport error, unparseable body, or a
    status code outside 2xx. *)
Definition failed_exchange (r : raw) : bool :=
  match r with
  | NetError _ => true
  | Reply _ (BadJson _) => true
  | Reply statusCode (Json _) => negb (is_2xx statusCode)
  end.

(** The status can be read, is none of the words on which the loop
    stops, and can be printed, as every string can. *)
Definition in_progress (stops : list string) (v : value) : Prop :=
  exists s, get v p_status = inr s
    /\ (forall lit, lit ∈ stops -> is_str s lit = false)
    /\ convertible s = true.

Definition openshift_stops : list string := ["ready"; "failed"].
Definition rhods_stops : list string := ["ready"; "succeeded"; "failed"; "error"].

(** The body of a deploy request that was accepted: a 2xx response that
    parses and whose [success] is truthy. *)
Definition accepted (r : raw) : option value :=
  match r with
  | Reply statusCode (Json response) =>
      if is_2xx statusCode then
        match get response p_success with
        | inr ok => if truthy ok then Some response else None
        | inl _ => None
        end
      else None
  | _ => None
  end.

(** How a run of the loop that starts in [w] with [budget] attempts to go
    can end: the outcome and the world it leaves.
    - [ended_ready]: attempt [n + 1] is the first to be returned;
    - [ended_raise]: the last attempt threw inside the [try];
    - [ended_timeout]: no attempt was returned and the last one, if any,
      fell through. *)
Inductive ended {R} (net : env) (judge : raw -> verdict) (q : event) (delay : Z)
    (budget : nat) (w : world R) : result value * world R -> Prop :=
| ended_ready (n : nat) (v : value) :
    (n < budget)%nat ->
    (forall j v', (j < n)%nat ->
       judge (http net (requests (trace w) + j)) <> Done v') ->
    judge (http net (requests (trace w) + n)) = Done v ->
    ended net judge q delay budget w
      (Ret v, after w (rounds q delay n ++ [q]))
| ended_raise (n : nat) (e : error) :
    S n = budget ->
    (forall j v', (j < n)%nat ->
       judge (http net (requests (trace w) + j)) <> Done v') ->
    judge (http net (requests (trace w) + n)) = Raise e ->
    ended net judge q delay budget w
      (Throw e, after w (rounds q delay n ++ [q]))
| ended_timeout :
    (forall j v', (j < budget)%nat ->
       judge (http net (requests (trace w) + j)) <> Done v') ->
    (forall n, S n = budget ->
       judge (http net (requests (trace w) + n)) = Pending) ->
    ended net judge q delay budget w
      (Throw (Error "Deployment timeout"), after w (rounds q delay budget)).

(** ** Concrete sessions *)

(** A new instance before anything has happened. *)
Definition fresh {R} : world R := World ∅ [].

Definition at_midnight : nat -> string := fun _ => "2024-01-01T00:00:00.000Z".

Definition ok_body (fields : list (string * value)) : raw :=
  Reply 200 (Json (VObj fields)).

Definition ready_body : value :=
  VObj [("status", VStr "ready"); ("endpoint", VStr "https://m.example/infer")].

(** The remote reports [failed] once, then [ready]. *)
Definition net_failed_then_ready : env :=
  Env (fun i => match i with
                | O => ok_body [("status", VStr "failed"); ("error", VStr "ImagePullBackOff")]
                | S _ => Reply 200 (Json ready_body)
                end) at_midnight.


(** The remote reports [deploying] twice, then [ready]. *)
Definition net_ready_third : env :=
  Env (fun i => match i with
                | 0 | 1 => ok_body [("status", VStr "deploying")]
                | _ => Reply 200 (Json ready_body)
                end%nat) at_midnight.

(** The remote always reports [succeeded]. *)
Definition net_succeeded : env :=
  Env (fun _ => ok_body [("status", VStr "succeeded");
                         ("endpoint", VStr "https://m.example/infer")]) at_midnight.

(** Every response is 200 with the body [null]. *)
Definition net_null : env :=
  Env (fun _ => Reply 200 (Json VNull)) at_midnight.

(** Every response is 200 with a body that is not JSON. *)
Definition net_garbled : env :=
  Env (fun _ => Reply 200 (BadJson "Unexpected token < in JSON at position 0"))
      at_midnight.

(** No request gets through. *)
Definition net_down : env :=
  Env (fun _ => NetError (Error "connect ECONNREFUSED 10.0.0.1:443")) at_midnight.

(** The deploy request is accepted, then the remote reports [ready]. *)
Definition net_accepting : env :=
  Env (fun i => match i with
                | O => ok_body [("success", VBool true);
                                ("endpoint", VStr "https://m.example/infer")]
                | S _ => Reply 200 (Json ready_body)
                end) at_midnight.

(** The deploy request is turned down. *)
Definition net_refusing : env :=
  Env (fun _ => ok_body [("success", VBool false); ("error", VStr "quota exceeded")])
      at_midnight.

Definition some_config : OpenShiftDeployment.modelConfig :=
  OpenShiftDeployment.ModelConfig "m" (VStr "ml") (VStr "sklearn")
    (VStr "./model.pkl") (VArr []).

(** The outcomes C5 names: a returned status, the failure report, the
    timeout. *)
Definition named_outcome (r : result value) : Prop :=
  (exists v, r = Ret v)
  \/ (exists m, r = Throw (Error ("Deployment failed: " +:+ m)))
  \/ r = Throw (Error "Deployment timeout").

(** Between any two requests of a trace there is a sleep of [delay]. *)
Definition paced (delay : Z) (tr : list event) : Prop :=
  forall i j ei ej, (i < j)%nat ->
    tr !! i = Some ei -> is_request ei = true ->
    tr !! j = Some ej -> is_request ej = true ->
    exists k, (i < k < j)%nat /\ tr !! k = Some (EvSleep delay).

(** ** The rest of the two integrations and the command line *)

(** [v[key]] for a key that no string, number, boolean or array has. *)
Definition get_key (v : value) (key : string) : error + value :=
  match v with
  | VUndefined =>
      inl (TypeError ("Cannot read properties of undefined (reading '"
                      +:+ key +:+ "')"))
  | VNull =>
      inl (TypeError ("Cannot read properties of null (reading '"
                      +:+ key +:+ "')"))
  | VObj fields => inr (field key fields)
  | _ => inr VUndefined
  end.

Definition read_key {R} (v : value) (key : string) : M R value :=
  fun w =>
    match get_key v key with
    | inl e => (Throw e, w)
    | inr x => (Ret x, w)
    end.

(** Number of sleeps of a trace, and the time they add up to. *)
Fixpoint sleeps (tr : list event) : nat :=
  match tr with
  | [] => 0%nat
  | EvSleep _ :: rest => S (sleeps rest)
  | EvRequest _ _ :: rest => sleeps rest
  end.

Fixpoint slept (tr : list event) : Z :=
  match tr with
  | [] => 0
  | EvSleep ms :: rest => ms + slept rest
  | EvRequest _ _ :: rest => slept rest
  end.

Module RHODSModels.

Section Instance.
Context (net : env).

(** [authenticate]: the token it stores only goes into the
    [Authorization] header; building it cannot throw. *)
Definition authenticate : M RHODSIntegration.model bool :=
  try_catch (ret true) (fun error => ret false).

Definition now : M RHODSIntegration.model string :=
  fun w => (Ret (clock net (length (trace w))), w).

Definition models_set (key : string) (m : RHODSIntegration.model)
    : M RHODSIntegration.model unit :=
  fun w => (Ret tt, World (<[key := m]> (store w)) (trace w)).

Definition models_get (key : string)
    : M RHODSIntegration.model (option RHODSIntegration.model) :=
  fun w => (Ret (store w !! key), w).

(** [deployModel] of [RHODSIntegration]; [name] is the one field of
    [modelConfig] that does not only go into the request body. *)
Definition deployModel (name : string) : M RHODSIntegration.model value :=
  ok <- authenticate ;;
  if negb ok then throw (Error "Authentication failed")
  else
    try_catch
      (response <- RHODSIntegration.makeRHODSRequest net "POST" "/api/models/deploy" ;;
       success <- read response p_success ;;
       if truthy success then
         model_id <- read_key response "model_id" ;;
         ep <- read response p_endpoint ;;
         t <- now ;;
         models_set name
           {| RHODSIntegration.id := model_id;
              RHODSIntegration.status := "deploying";
              RHODSIntegration.endpoint := ep;
              RHODSIntegration.created_at := t |} ;;;
         printed <- read response p_endpoint ;;
         _ <- show printed ;;
         ret tt
       else
         e <- read response p_error ;;
         text <- show (or_else e (VStr "Model deployment failed")) ;;
         throw (Error text))
      (fun error => throw error) ;;;
    RHODSIntegration.monitorDeployment net name.

(** [makeInferenceRequest]: whatever parses is resolved; the status code
    is not looked at. *)
Definition settle_inference (r : raw) : error + value :=
  match r with
  | NetError e => inl e
  | Reply statusCode (BadJson msg) => inl (Error ("Invalid response: " +:+ msg))
  | Reply statusCode (Json response) => inr response
  end.

Definition makeInferenceRequest : M RHODSIntegration.model value :=
  exchange net settle_inference "POST" "/infer".

Definition runInference (modelName : string) (data parameters : value)
    : M RHODSIntegration.model value :=
  try_catch
    (model <- models_get modelName ;;
     match model with
     | None => throw (Error ("Model " +:+ modelName +:+ " not deployed"))
     | Some _ =>
         response <- makeInferenceRequest ;;
         _ <- read response p_result ;;
         ret response
     end)
    (fun error => throw error).

End Instance.

End RHODSModels.

(** *** Strings and files of the command line *)

(** [hay.includes(needle)] *)
Fixpoint includes (hay needle : string) : bool :=
  String.prefix needle hay
  || match hay with
     | EmptyString => false
     | String _ rest => includes rest needle
     end.

(** [s.endsWith(suffix)] *)
Fixpoint endsWith (s suffix : string) : bool :=
  String.eqb s suffix
  || match s with
     | EmptyString => false
     | String _ rest => endsWith rest suffix
     end.

(** [args.join(' ')] *)
Fixpoint join_spaces (args : list string) : string :=
  match args with
  | [] => ""
  | [a] => a
  | a :: rest => a +:+ " " +:+ join_spaces rest
  end.

(** [s.split('\n')] *)
Fixpoint split_lines (s : string) : list string :=
  match s with
  | EmptyString => [""]
  | String c rest =>
      if (Ascii.nat_of_ascii c =? 10)%nat then "" :: split_lines rest
      else match split_lines rest with
           | [] => [String c ""]
           | line :: lines => String c line :: lines
           end
  end.

(** [!line.trim()] on the UTF-8 bytes of a line: the line is made of
    white space and line terminators of the language only. *)
Fixpoint blank (line : string) : bool :=
  match line with
  | EmptyString => true
  | String c1 rest1 =>
      let b1 := Ascii.nat_of_ascii c1 in
      if ((9 <=? b1) && (b1 <=? 13) || (b1 =? 32))%nat then blank rest1
      else
        match rest1 with
        | EmptyString => false
        | String c2 rest2 =>
            let b2 := Ascii.nat_of_ascii c2 in
            if ((b1 =? 194) && (b2 =? 160))%nat then blank rest2
            else
              match rest2 with
              | EmptyString => false
              | String c3 rest3 =>
                  let b3 := Ascii.nat_of_ascii c3 in
                  if ((b1 =? 225) && (b2 =? 154) && (b3 =? 128)
                      || (b1 =? 226) && (b2 =? 128)
                         && ((128 <=? b3) && (b3 <=? 138)
                             || (b3 =? 168) || (b3 =? 169) || (b3 =? 175))
                      || (b1 =? 226) && (b2 =? 129) && (b3 =? 159)
                      || (b1 =? 227) && (b2 =? 128) && (b3 =? 128)
                      || (b1 =? 239) && (b2 =? 187) && (b3 =? 191))%nat
                  then blank rest3
                  else false
              end
        end
  end.

(** What is on disk below the working directory: regular files with
    their content and directories with their entries, all readable. *)
Inductive entry : Type :=
| File (content : string)
| Dir (items : list (string * entry)).

Fixpoint lookup_item (name : string) (items : list (string * entry))
    : option entry :=
  match items with
  | [] => None
  | (n, e) :: rest => if String.eqb n name then Some e else lookup_item name rest
  end.

(** [path.join(dir, item)] for the working directory ['.'] or a path
    below it, and an entry name. *)
Definition path_join (dir item : string) : string :=
  if String.eqb dir "." then item else dir +:+ "/" +:+ item.

Definition extensions : list string :=
  [".pkl"; ".joblib"; ".h5"; ".pb"; ".onnx"; ".pt"; ".pth"].

Module AIBuilderCLIWithOpenShift.

Section Process.
Context (net : env) (JSON_parse : string -> parsed)
  (cwd : list (string * entry)).

(** What [scanDirectory] does with one entry of a directory: descend
    into it, or push its path when its name has a model extension. *)
Fixpoint scan_entry (fullPath item : string) (e : entry) : list string :=
  match e with
  | File _ => if existsb (endsWith item) extensions then [fullPath] else []
  | Dir sub =>
      (fix scan (l : list (string * entry)) : list string :=
         match l with
         | [] => []
         | (item', e') :: rest =>
             scan_entry (path_join fullPath item') item' e' ++ scan rest
         end) sub
  end.

(** [scanDirectory] pushes onto [files]; here it returns what it pushes. *)
Fixpoint scanDirectory (dir : string) (items : list (string * entry))
    : list string :=
  match items with
  | [] => []
  | (item, e) :: rest =>
      scan_entry (path_join dir item) item e ++ scanDirectory dir rest
  end.

Definition detectModelFiles : list string := scanDirectory "." cwd.

(** [fs.readFileSync('requirements.txt', 'utf8')] once [existsSync] has
    said yes: a directory of that name cannot be read. *)
Definition readRequirements (e : entry) : M OpenShiftDeployment.deployment string :=
  match e with
  | File content => ret content
  | Dir _ => throw (Error "EISDIR: illegal operation on a directory, read")
  end.

Definition detectFramework : M OpenShiftDeployment.deployment string :=
  match lookup_item "requirements.txt" cwd with
  | Some e =>
      requirements <- readRequirements e ;;
      if includes requirements "tensorflow" then ret "tensorflow"
      else if includes requirements "pytorch" then ret "pytorch"
      else if includes requirements "scikit-learn" then ret "sklearn"
      else ret "unknown"
  | None => ret "unknown"
  end.

Definition getRequirements : M OpenShiftDeployment.deployment (list string) :=
  match lookup_item "requirements.txt" cwd with
  | Some e =>
      requirements <- readRequirements e ;;
      ret (filter (fun line => blank line = false) (split_lines requirements))
  | None => ret []
  end.

Definition parseInferenceData (args : list string) : value :=
  match args with
  | [] => VObj [("prompt", VStr "Hello, world!")]
  | _ =>
      match JSON_parse (join_spaces args) with
      | Json v => v
      | BadJson _ => VObj [("prompt", VStr (join_spaces args))]
      end
  end.

(** The handlers. A missing argument is [undefined]; [!modelName] also
    holds for the empty string. *)
Definition deployModel (args : list string) : M OpenShiftDeployment.deployment unit :=
  match args with
  | [] => ret tt
  | modelName :: rest =>
      if String.eqb modelName "" then ret tt
      else
        let modelType := match rest with [] => "ml" | t :: _ => t end in
        match detectModelFiles with
        | [] => ret tt
        | first :: _ =>
            framework <- detectFramework ;;
            requirements <- getRequirements ;;
            try_catch
              (OpenShiftDeployment.deployModel net
                 {| OpenShiftDeployment.name := modelName;
                    OpenShiftDeployment.type := VStr modelType;
                    OpenShiftDeployment.framework := VStr framework;
                    OpenShiftDeployment.modelPath := VStr first;
                    OpenShiftDeployment.requirements := VArr (VStr <$> requirements) |} ;;;
               ret tt)
              (fun error => ret tt)
        end
  end.

(** [listModels] only prints; the line for a record converts its
    endpoint. *)
Definition listModels (args : list string) : M OpenShiftDeployment.deployment unit :=
  fun w =>
    if bool_decide
         (map_Forall
            (fun _ d => convertible (OpenShiftDeployment.endpoint d) = true)
            (store w))
    then (Ret tt, w)
    else (Throw unconvertible, w).

Definition runInference (args : list string) : M OpenShiftDeployment.deployment unit :=
  match args with
  | [] => ret tt
  | modelName :: dataArgs =>
      if String.eqb modelName "" then ret tt
      else
        let data := parseInferenceData dataArgs in
        try_catch
          (OpenShiftDeployment.runInference net modelName data ;;; ret tt)
          (fun error => ret tt)
  end.

(** The three lines printed read [status], [endpoint] and [error] off
    what the status query returned. *)
Definition getDeploymentStatus (args : list string)
    : M OpenShiftDeployment.deployment unit :=
  match args with
  | [] => ret tt
  | modelName :: _ =>
      if String.eqb modelName "" then ret tt
      else
        try_catch
          (status <- OpenShiftDeployment.getDeploymentStatus net modelName ;;
           s <- read status p_status ;;
           _ <- show s ;;
           ep <- read status p_endpoint ;;
           _ <- show (or_else ep (VStr "N/A")) ;;
           e <- read status p_error ;;
           _ <- show (or_else e (VStr "None")) ;;
           ret tt)
          (fun error => ret tt)
  end.

Definition initOpenShift (args : list string) : M OpenShiftDeployment.deployment unit :=
  try_catch
    (OpenShiftDeployment.makeRequest net "GET" "/health" ;;; ret tt)
    (fun error => ret tt).

(** [showHelp] only prints. *)
Definition showHelp (args : list string) : M OpenShiftDeployment.deployment unit :=
  ret tt.

(** The own properties of [this.commands]. *)
Definition commands (command : string)
    : option (list string -> M OpenShiftDeployment.deployment unit) :=
  if String.eqb command "deploy-model" then Some deployModel
  else if String.eqb command "list-models" then Some listModels
  else if String.eqb command "infer" then Some runInference
  else if String.eqb command "status" then Some getDeploymentStatus
  else if String.eqb command "init-openshift" then Some initOpenShift
  else if String.eqb command "help" then Some showHelp
  else None.

(** [execute]. A name that [this.commands] inherits from
    [Object.prototype] selects a function that knows nothing of the
    instance, inside the [try]; like an unknown command it leaves the
    world as it is. *)
Definition execute (args : list string) : M OpenShiftDeployment.deployment unit :=
  match args with
  | [] => showHelp []
  | command :: commandArgs =>
      if String.eqb command "" || String.eqb command "--help" then showHelp []
      else
        match commands command with
        | None => showHelp []
        | Some handler =>
            try_catch (handler commandArgs) (fun error => ret tt)
        end
  end.

(** The script run as a program: a new instance, and the arguments
    after the script's name. *)
Definition main (argv : list string)
    : result unit * world OpenShiftDeployment.deployment :=
  execute argv fresh.

End Process.

End AIBuilderCLIWithOpenShift.

(** *** More concrete sessions *)

(** The remote always reports [failed], without an [error]. *)
Definition net_failed_bare : env :=
  Env (fun _ => ok_body [("status", VStr "failed")]) at_midnight.

(** Every response is a 500 whose body parses. *)
Definition net_500 : env :=
  Env (fun _ => Reply 500 (Json (VObj [("result", VStr "pong")]))) at_midnight.

(** The deploy request is accepted, then the remote reports [deploying]
    for ever. *)
Definition net_never_ready : env :=
  Env (fun i => match i with
                | O => ok_body [("success", VBool true);
                                ("endpoint", VStr "https://m.example/infer")]
                | S _ => ok_body [("status", VStr "deploying")]
                end) at_midnight.

(** An OpenShift instance and a RHODS instance that hold a record for
    ["m"]. *)
Definition with_deployment : world OpenShiftDeployment.deployment :=
  World {[ "m" := OpenShiftDeployment.Deployment
                    (VStr "https://m.example/infer") "deploying"
                    "2024-01-01T00:00:00.000Z" ]} [].

Definition with_model : world RHODSIntegration.model :=
  World {[ "m" := RHODSIntegration.Model (VNum "7") "deploying"
                    (VStr "https://m.example/infer")
                    "2024-01-01T00:00:00.000Z" ]} [].

(** A working directory with a model file in a subdirectory, and one
    without any. *)
Definition cwd_with_model : list (string * entry) :=
  [("README.md", File "notes");
   ("models", Dir [("clf.pkl", File "..."); ("notes.txt", File "")]);
   ("requirements.txt", File "tensorflow==2.8.0")].

Definition cwd_without_model : list (string * entry) :=
  [("README.md", File "notes"); ("src", Dir [("app.py", File "print(1)")])].

(** A parser that takes nothing for JSON. *)
Definition no_json : string -> parsed := fun _ => BadJson "Unexpected token".

(** Two deploy requests are accepted, the second with another endpoint;
    the status requests in between and after report [ready]. *)
Definition net_redeploy : env :=
  Env (fun i => match i with
                | 0 => ok_body [("success", VBool true);
                                ("endpoint", VStr "https://m.example/infer")]
                | 2 => ok_body [("success", VBool true);
                                ("endpoint", VStr "https://m2.example/infer")]
                | _ => Reply 200 (Json ready_body)
                end%nat) at_midnight.

(** The loop of a session started in [w] gets to attempt [k + 1]: the
    run of the session is the run of the loop from that attempt on, [k]
    rounds of a request and a sleep after [w]. *)
Definition openshift_reaches (net : env) (maxAttempts : nat) (delay : Z)
    (modelName : string) (w : world OpenShiftDeployment.deployment) (k : nat)
    : Prop :=
  exists l, S (k + l) = maxAttempts
    /\ OpenShiftDeployment.poll net maxAttempts delay modelName w
       = OpenShiftDeployment.attempts net maxAttempts delay modelName (S l) (S k)
           (after w (rounds (openshift_query modelName) delay k)).

Definition rhods_reaches (net : env) (maxAttempts : nat) (delay : Z)
    (modelName : string) (w : world RHODSIntegration.model) (k : nat) : Prop :=
  exists l, S (k + l) = maxAttempts
    /\ RHODSIntegration.poll net maxAttempts delay modelName w
       = RHODSIntegration.attempts net maxAttempts delay modelName (S l) (S k)
           (after w (rounds (rhods_query modelName) delay k)).

(** The remote always reports a status that is an object with a
    [toString] key. *)
Definition net_unprintable_status : env :=
  Env (fun _ => ok_body [("status", VObj [("toString", VNum "1")])])
      at_midnight.

(** The remote always reports [ready], with an endpoint that is an object
    with a [toString] key. *)
Definition net_unprintable_endpoint : env :=
  Env (fun _ => ok_body [("status", VStr "ready");
                         ("endpoint", VObj [("toString", VNum "1")])])
      at_midnight.

(** ** Traces *)

Lemma requests_app (a b : list event) :
  requests (a ++ b) = (requests a + requests b)%nat.
Proof.
  induction a as [|e a IH]; simpl; [reflexivity|].
  rewrite IH. lia.
Qed.

Lemma requests_rounds (q : event) (delay : Z) (n : nat) :
  is_request q = true -> requests (rounds q delay n) = n.
Proof.
  intros Hq. induction n as [|n IH]; simpl; [reflexivity|].
  rewrite Hq, IH. reflexivity.
Qed.

Lemma after_after {R} (w : world R) (a b : list event) :
  after (after w a) b = after w (a ++ b).
Proof. unfold after. simpl. by rewrite app_assoc. Qed.

Lemma after_nil {R} (w : world R) : after w [] = w.
Proof. destruct w. unfold after. simpl. by rewrite app_nil_r. Qed.

Lemma rounds_snoc (q : event) (delay : Z) (n : nat) :
  rounds q delay n ++ [q; EvSleep delay] = rounds q delay (S n).
Proof.
  induction n as [|n IH]; [reflexivity|].
  change (rounds q delay (S n)) with (q :: EvSleep delay :: rounds q delay n).
  simpl. by rewrite IH.
Qed.

(** ** The loop, once for both integrations *)

Section Loop.
Context {R : Type} (net : env) (q : event) (delay : Z) (maxAttempts : nat).
Context (judge : raw -> verdict) (loop : nat -> nat -> M R value).

Hypothesis q_request : is_request q = true.
Hypothesis loop_O : forall a w,
  loop 0 a w = (Throw (Error "Deployment timeout"), w).
Hypothesis loop_S : forall l a w,
  loop (S l) a w =
    match judge (http net (requests (trace w))) with
    | Done v => (Ret v, after w [q])
    | Raise e =>
        if (a =? maxAttempts)%nat then (Throw e, after w [q])
        else loop l (S a) (after w [q; EvSleep delay])
    | Pending => loop l (S a) (after w [q; EvSleep delay])
    end.

Lemma requests_after_round (w : world R) :
  requests (trace (after w [q; EvSleep delay])) = S (requests (trace w)).
Proof. simpl. rewrite requests_app. simpl. rewrite q_request. lia. Qed.

(** Attempts before the last that do not return are each followed by a
    sleep and the next attempt. *)
Lemma loop_skip (k l a : nat) (w : world R) :
  (a + k + l = maxAttempts)%nat ->
  (forall j v, (j < k)%nat ->
     judge (http net (requests (trace w) + j)) <> Done v) ->
  loop (k + S l) a w = loop (S l) (a + k) (after w (rounds q delay k)).
Proof.
  revert a w. induction k as [|k IH]; intros a w Hsum Hnot.
  - rewrite after_nil. by replace (a + 0)%nat with a by lia.
  - change (S k + S l)%nat with (S (k + S l)). rewrite loop_S.
    assert (Hnext : loop (k + S l) (S a) (after w [q; EvSleep delay])
                    = loop (S l) (a + S k) (after w (rounds q delay (S k)))).
    { rewrite IH; [| lia |].
      - rewrite after_after. by replace (S a + k)%nat with (a + S k)%nat by lia.
      - intros j v Hj. rewrite requests_after_round.
        replace (S (requests (trace w)) + j)%nat
          with (requests (trace w) + S j)%nat by lia.
        apply Hnot. lia. }
    pose proof (Hnot 0%nat) as H0. rewrite Nat.add_0_r in H0.
    destruct (judge (http net (requests (trace w)))) as [v|e|].
    + exfalso. apply (H0 v); [lia | reflexivity].
    + destruct (Nat.eqb_spec a maxAttempts) as [Heq|_]; [lia | exact Hnext].
    + exact Hnext.
Qed.


(** One more attempt in front of a run: an attempt that did not return,
    followed by a sleep. *)
Lemma ended_next (l : nat) (w : world R) (out : result value * world R) :
  (forall v, judge (http net (requests (trace w))) <> Done v) ->
  (l = 0%nat -> judge (http net (requests (trace w))) = Pending) ->
  ended net judge q delay l (after w [q; EvSleep delay]) out ->
  ended net judge q delay (S l) w out.
Proof.
  intros Hhead Hlast Hrest.
  assert (Hshift : forall n,
    (forall j v', (j < n)%nat ->
       judge (http net (requests (trace (after w [q; EvSleep delay])) + j))
       <> Done v') ->
    forall j v', (j < S n)%nat ->
      judge (http net (requests (trace w) + j)) <> Done v').
  { intros n Hpre [|j] v' Hj.
    - rewrite Nat.add_0_r. apply Hhead.
    - replace (requests (trace w) + S j)%nat
        with (requests (trace (after w [q; EvSleep delay])) + j)%nat
        by (rewrite requests_after_round; lia).
      apply Hpre. lia. }
  inversion Hrest as [n v Hn Hpre Hdone | n e Hn Hpre Hraise | Hpre Hpend];
    subst; rewrite after_after;
    rewrite requests_after_round in *.
  - rewrite app_assoc. change (ended net judge q delay (S l) w
      (Ret v, after w (rounds q delay (S n) ++ [q]))).
    apply ended_ready; [lia | by apply Hshift |].
    by replace (requests (trace w) + S n)%nat
      with (S (requests (trace w)) + n)%nat by lia.
  - rewrite app_assoc. change (ended net judge q delay (S (S n)) w
      (Throw e, after w (rounds q delay (S n) ++ [q]))).
    apply ended_raise; [reflexivity | by apply Hshift |].
    by replace (requests (trace w) + S n)%nat
      with (S (requests (trace w)) + n)%nat by lia.
  - change (ended net judge q delay (S l) w
      (Throw (Error "Deployment timeout"), after w (rounds q delay (S l)))).
    apply ended_timeout; [by apply Hshift |].
    intros n Hn. injection Hn as ->. destruct l as [|l'].
    + rewrite Nat.add_0_r. by apply Hlast.
    + replace (requests (trace w) + S l')%nat
        with (S (requests (trace w)) + l')%nat by lia.
      by apply Hpend.
Qed.

(** Every run of the loop ends in one of the three ways of [ended]. *)
Lemma loop_ended (l a : nat) (w : world R) :
  (a + l = S maxAttempts)%nat ->
  ended net judge q delay l w (loop l a w).
Proof.
  revert a w. induction l as [|l IH]; intros a w Hsum.
  - rewrite loop_O. rewrite <- (after_nil w) at 2.
    apply ended_timeout; intros; lia.
  - rewrite loop_S.
    destruct (judge (http net (requests (trace w)))) as [v|e|] eqn:Hj.
    + apply (ended_ready net judge q delay (S l) w 0 v);
        [lia | intros; lia | by rewrite Nat.add_0_r].
    + destruct (Nat.eqb_spec a maxAttempts) as [Heq|Hne].
      * apply (ended_raise net judge q delay (S l) w 0 e);
          [lia | intros; lia | by rewrite Nat.add_0_r].
      * apply ended_next; [by rewrite Hj | intros ->; lia |].
        apply IH. lia.
    + apply ended_next; [by rewrite Hj | by rewrite Hj |].
      apply IH. lia.
Qed.

End Loop.

(** ** The two loops are instances *)

Ltac run_attempt :=
  unfold bind, try_catch, ret, throw, sleep, read, show, exchange, observe,
    record_event, after; simpl;
  repeat match goal with
         | |- context [match to_string ?v with inl _ => _ | inr _ => _ end] =>
             destruct (to_string v) eqn:?; simpl
         | |- context [match ?s ?r with inl _ => _ | inr _ => _ end] =>
             destruct (s r) eqn:?; simpl
         | |- context [match get ?v ?p with inl _ => _ | inr _ => _ end] =>
             destruct (get v p) eqn:?; simpl
         | |- context [is_str ?s ?lit] =>
             destruct (is_str s lit) eqn:?; simpl
         | |- context [if (?a =? ?b)%nat then _ else _] =>
             destruct (a =? b)%nat eqn:?; simpl
         end;
  rewrite <- ?app_assoc; try reflexivity; try congruence.

Lemma openshift_loop_S (net : env) (maxAttempts : nat) (delay : Z)
    (modelName : string) (l a : nat) (w : world OpenShiftDeployment.deployment) :
  OpenShiftDeployment.attempts net maxAttempts delay modelName (S l) a w =
    match openshift_judge
            (observe OpenShiftDeployment.settle (http net (requests (trace w)))) with
    | Done v => (Ret v, after w [openshift_query modelName])
    | Raise e =>
        if (a =? maxAttempts)%nat
        then (Throw e, after w [openshift_query modelName])
        else OpenShiftDeployment.attempts net maxAttempts delay modelName l (S a)
               (after w [openshift_query modelName; EvSleep delay])
    | Pending =>
        OpenShiftDeployment.attempts net maxAttempts delay modelName l (S a)
          (after w [openshift_query modelName; EvSleep delay])
    end.
Proof.
  cbn [OpenShiftDeployment.attempts].
  unfold OpenShiftDeployment.inspect, OpenShiftDeployment.getDeploymentStatus,
    OpenShiftDeployment.makeRequest, openshift_judge, openshift_query.
  run_attempt.
Qed.

Lemma rhods_loop_S (net : env) (maxAttempts : nat) (delay : Z)
    (modelName : string) (l a : nat) (w : world RHODSIntegration.model) :
  RHODSIntegration.attempts net maxAttempts delay modelName (S l) a w =
    match rhods_judge
            (observe RHODSIntegration.settle (http net (requests (trace w)))) with
    | Done v => (Ret v, after w [rhods_query modelName])
    | Raise e =>
        if (a =? maxAttempts)%nat
        then (Throw e, after w [rhods_query modelName])
        else RHODSIntegration.attempts net maxAttempts delay modelName l (S a)
               (after w [rhods_query modelName; EvSleep delay])
    | Pending =>
        RHODSIntegration.attempts net maxAttempts delay modelName l (S a)
          (after w [rhods_query modelName; EvSleep delay])
    end.
Proof.
  cbn [RHODSIntegration.attempts].
  unfold RHODSIntegration.inspect, RHODSIntegration.getDeploymentStatus,
    RHODSIntegration.makeRHODSRequest, rhods_judge, rhods_query.
  run_attempt.
Qed.

(** ** Reading the verdicts *)

Lemma to_string_inr (v : value) (text : string) :
  to_string v = inr text <-> convertible v = true /\ text = to_text v.
Proof.
  unfold to_string. destruct (convertible v); split.
  - by intros [= <-].
  - by intros [_ ->].
  - discriminate.
  - by intros [? _].
Qed.

Lemma to_string_inl (v : value) (te : error) :
  to_string v = inl te <-> convertible v = false /\ te = unconvertible.
Proof.
  unfold to_string. destruct (convertible v); split.
  - discriminate.
  - by intros [? _].
  - by intros [= <-].
  - by intros [_ ->].
Qed.

Lemma to_string_convertible (v : value) :
  convertible v = true -> to_string v = inr (to_text v).
Proof. intros H. by apply to_string_inr. Qed.

Lemma openshift_judge_done (v v' : value) :
  openshift_judge v = Done v'
  <-> v' = v /\ has_status v "ready" /\ prints v p_endpoint.
Proof.
  unfold openshift_judge, has_status, prints. split.
  - destruct (get v p_status) as [te|s] eqn:Hs; [discriminate|].
    destruct (is_str s "ready") eqn:Hr.
    + destruct (get v p_endpoint) as [te|ep]; [discriminate|].
      destruct (to_string ep) as [te|text] eqn:Hep; [discriminate|].
      apply to_string_inr in Hep as [Hep _]. intros [= <-].
      split; [reflexivity|]. split; [by exists s | by exists ep].
    + destruct (is_str s "failed").
      * destruct (get v p_error) as [te|x]; [discriminate|].
        destruct (to_string x); discriminate.
      * destruct (to_string s); discriminate.
  - intros [-> [(s & -> & ->) (ep & -> & Hep)]].
    by rewrite (to_string_convertible _ Hep).
Qed.

Lemma rhods_judge_done (v v' : value) :
  rhods_judge v = Done v'
  <-> v' = v /\ (has_status v "ready" \/ has_status v "succeeded")
      /\ prints v p_endpoint.
Proof.
  unfold rhods_judge, has_status, prints. split.
  - destruct (get v p_status) as [te|s] eqn:Hs; [discriminate|].
    destruct (is_str s "ready" || is_str s "succeeded") eqn:Hr.
    + destruct (get v p_endpoint) as [te|ep]; [discriminate|].
      destruct (to_string ep) as [te|text] eqn:Hep; [discriminate|].
      apply to_string_inr in Hep as [Hep _]. intros [= <-].
      split; [reflexivity|]. split; [|by exists ep].
      apply orb_true_iff in Hr as [Hr|Hr]; [left | right]; by exists s.
    + destruct (is_str s "failed" || is_str s "error").
      * destruct (get v p_error) as [te|x]; [discriminate|].
        destruct (to_string _); discriminate.
      * destruct (to_string s); discriminate.
  - intros [-> [Hready (ep & -> & Hep)]].
    rewrite (to_string_convertible _ Hep).
    destruct Hready as [(s & -> & Hs) | (s & -> & Hs)]; rewrite Hs; simpl;
      [reflexivity | by rewrite orb_true_r].
Qed.

Lemma openshift_judge_pending (v : value) :
  in_progress openshift_stops v -> openshift_judge v = Pending.
Proof.
  intros (s & Hs & Hnot & Hconv). unfold openshift_judge. rewrite Hs.
  rewrite (Hnot "ready"), (Hnot "failed"), (to_string_convertible _ Hconv);
    [reflexivity | |]; unfold openshift_stops; set_solver.
Qed.

Lemma rhods_judge_pending (v : value) :
  in_progress rhods_stops v -> rhods_judge v = Pending.
Proof.
  intros (s & Hs & Hnot & Hconv). unfold rhods_judge. rewrite Hs.
  rewrite (Hnot "ready"), (Hnot "succeeded"), (Hnot "failed"), (Hnot "error"),
    (to_string_convertible _ Hconv);
    [reflexivity | | | |]; unfold rhods_stops; set_solver.
Qed.

(** A throw inside the [try] is the failure report, or a TypeError: of
    reading [status] off a response that has no properties, or of
    converting a property of the response that does not convert. *)
Lemma openshift_judge_raise (v : value) (e : error) :
  openshift_judge v = Raise e ->
  get v p_status = inl e
  \/ (e = unconvertible
      /\ exists p x, get v p = inr x /\ convertible x = false)
  \/ (has_status v "failed"
      /\ exists x, get v p_error = inr x /\ convertible x = true
                   /\ e = Error ("Deployment failed: " +:+ to_text x)).
Proof.
  unfold openshift_judge, has_status.
  destruct (get v p_status) as [te|s] eqn:Hs; [intros [= <-]; by left|].
  assert (Hany : forall p, exists x, get v p = inr x).
  { intros p. destruct v; simpl in *; try discriminate; eauto. }
  destruct (Hany p_endpoint) as [ep Hep]. destruct (Hany p_error) as [x Hx].
  rewrite Hep, Hx. intros Hraise. right.
  destruct (is_str s "ready").
  - destruct (to_string ep) as [te|text] eqn:Hconv; [|discriminate].
    apply to_string_inl in Hconv as [Hconv ->]. injection Hraise as <-.
    left. split; [reflexivity|]. by exists p_endpoint, ep.
  - destruct (is_str s "failed") eqn:Hf.
    + destruct (to_string x) as [te|text] eqn:Hconv.
      * apply to_string_inl in Hconv as [Hconv ->]. injection Hraise as <-.
        left. split; [reflexivity|]. by exists p_error, x.
      * apply to_string_inr in Hconv as [Hconv ->]. injection Hraise as <-.
        right. split; [by exists s | by exists x].
    + destruct (to_string s) as [te|text] eqn:Hconv; [|discriminate].
      apply to_string_inl in Hconv as [Hconv ->]. injection Hraise as <-.
      left. split; [reflexivity|]. by exists p_status, s.
Qed.

Lemma or_else_unconvertible (x y : value) :
  convertible y = true -> convertible (or_else x y) = false ->
  convertible x = false.
Proof. unfold or_else. destruct (truthy x); congruence. Qed.

Lemma rhods_judge_raise (v : value) (e : error) :
  rhods_judge v = Raise e ->
  get v p_status = inl e
  \/ (e = unconvertible
      /\ exists p x, get v p = inr x /\ convertible x = false)
  \/ ((has_status v "failed" \/ has_status v "error")
      /\ exists x, get v p_error = inr x
           /\ convertible (or_else x (VStr "Unknown error")) = true
           /\ e = Error ("Deployment failed: "
                         +:+ to_text (or_else x (VStr "Unknown error")))).
Proof.
  unfold rhods_judge, has_status.
  destruct (get v p_status) as [te|s] eqn:Hs; [intros [= <-]; by left|].
  assert (Hany : forall p, exists x, get v p = inr x).
  { intros p. destruct v; simpl in *; try discriminate; eauto. }
  destruct (Hany p_endpoint) as [ep Hep]. destruct (Hany p_error) as [x Hx].
  rewrite Hep, Hx. intros Hraise. right.
  destruct (is_str s "ready" || is_str s "succeeded").
  - destruct (to_string ep) as [te|text] eqn:Hconv; [|discriminate].
    apply to_string_inl in Hconv as [Hconv ->]. injection Hraise as <-.
    left. split; [reflexivity|]. by exists p_endpoint, ep.
  - destruct (is_str s "failed" || is_str s "error") eqn:Hf.
    + destruct (to_string (or_else x (VStr "Unknown error")))
        as [te|text] eqn:Hconv.
      * apply to_string_inl in Hconv as [Hconv ->]. injection Hraise as <-.
        left. split; [reflexivity|]. exists p_error, x.
        split; [done|]. by apply (or_else_unconvertible x (VStr "Unknown error")).
      * apply to_string_inr in Hconv as [Hconv ->]. injection Hraise as <-.
        right. split; [|by exists x].
        apply orb_true_iff in Hf as [Hf|Hf]; [left | right]; by exists s.
    + destruct (to_string s) as [te|text] eqn:Hconv; [|discriminate].
      apply to_string_inl in Hconv as [Hconv ->]. injection Hraise as <-.
      left. split; [reflexivity|]. by exists p_status, s.
Qed.

Lemma unknown_in_progress_openshift (e : error) :
  in_progress openshift_stops (unknown e).
Proof.
  exists (VStr "unknown"). split; [reflexivity|]. split; [|reflexivity].
  intros lit Hlit. unfold openshift_stops in Hlit.
  set_unfold. destruct Hlit as [->|[->|[]]]; reflexivity.
Qed.

Lemma unknown_in_progress_rhods (e : error) :
  in_progress rhods_stops (unknown e).
Proof.
  exists (VStr "unknown"). split; [reflexivity|]. split; [|reflexivity].
  intros lit Hlit. unfold rhods_stops in Hlit.
  set_unfold. destruct Hlit as [->|[->|[->|[->|[]]]]]; reflexivity.
Qed.

(** A failed request never reaches the OpenShift loop as anything but the
    local [unknown] value. *)
Lemma openshift_failed_unknown (r : raw) :
  failed_exchange r = true ->
  exists e, OpenShiftDeployment.settle r = inl e
            /\ observe OpenShiftDeployment.settle r = unknown e.
Proof.
  unfold observe. destruct r as [e|code [msg|response]]; simpl; eauto.
  intros Hcode. apply negb_true_iff in Hcode. rewrite Hcode.
  destruct (http_error response code); eauto.
Qed.

(** In the RHODS wrapper a failed request is rejected, or resolved to the
    [invalid] object. *)
Lemma rhods_failed_cases (r : raw) :
  failed_exchange r = true ->
  (exists e, RHODSIntegration.settle r = inl e
             /\ observe RHODSIntegration.settle r = unknown e)
  \/ (exists msg, observe RHODSIntegration.settle r = RHODSIntegration.invalid msg).
Proof.
  unfold observe. destruct r as [e|code [msg|response]]; simpl; eauto.
  intros Hcode. apply negb_true_iff in Hcode. rewrite Hcode.
  destruct (http_error response code); eauto.
Qed.

Lemma invalid_in_progress (msg : string) :
  in_progress rhods_stops (RHODSIntegration.invalid msg).
Proof.
  exists VUndefined. split; [reflexivity|]. split; [|reflexivity].
  intros lit _. reflexivity.
Qed.

(** Every status that is a string, other than the stop words, is in
    progress. *)
Lemma string_status_in_progress (stops : list string) (v : value)
    (word : string) :
  get v p_status = inr (VStr word) ->
  word ∉ stops ->
  in_progress stops v.
Proof.
  intros Hget Hword. exists (VStr word).
  split; [exact Hget|]. split; [|reflexivity].
  intros lit Hlit. simpl. apply String.eqb_neq. by intros ->.
Qed.

Lemma openshift_failed_pending (r : raw) :
  failed_exchange r = true -> openshift_verdict r = Pending.
Proof.
  intros (e & _ & Hobs)%openshift_failed_unknown.
  unfold openshift_verdict. rewrite Hobs.
  apply openshift_judge_pending, unknown_in_progress_openshift.
Qed.

Lemma rhods_failed_pending (r : raw) :
  failed_exchange r = true -> rhods_verdict r = Pending.
Proof.
  intros [(e & _ & Hobs) | (msg & Hobs)]%rhods_failed_cases;
    unfold rhods_verdict; rewrite Hobs; apply rhods_judge_pending.
  - apply unknown_in_progress_rhods.
  - apply invalid_in_progress.
Qed.

(** ** Poll sessions *)

Section Sessions.
Context (net : env) (maxAttempts : nat) (delay : Z) (modelName : string).

Lemma openshift_poll_ended (w : world OpenShiftDeployment.deployment) :
  ended net openshift_verdict (openshift_query modelName) delay maxAttempts w
    (OpenShiftDeployment.poll net maxAttempts delay modelName w).
Proof.
  unfold OpenShiftDeployment.poll.
  apply (loop_ended net (openshift_query modelName) delay maxAttempts
           openshift_verdict
           (OpenShiftDeployment.attempts net maxAttempts delay modelName)).
  - reflexivity.
  - reflexivity.
  - intros. apply openshift_loop_S.
  - lia.
Qed.

Lemma rhods_poll_ended (w : world RHODSIntegration.model) :
  ended net rhods_verdict (rhods_query modelName) delay maxAttempts w
    (RHODSIntegration.poll net maxAttempts delay modelName w).
Proof.
  unfold RHODSIntegration.poll.
  apply (loop_ended net (rhods_query modelName) delay maxAttempts
           rhods_verdict
           (RHODSIntegration.attempts net maxAttempts delay modelName)).
  - reflexivity.
  - reflexivity.
  - intros. apply rhods_loop_S.
  - lia.
Qed.

Lemma openshift_poll_skip (k l : nat) (w : world OpenShiftDeployment.deployment) :
  S (k + l) = maxAttempts ->
  (forall j v, (j < k)%nat -> openshift_verdict (reply net w j) <> Done v) ->
  OpenShiftDeployment.poll net maxAttempts delay modelName w
  = OpenShiftDeployment.attempts net maxAttempts delay modelName (S l) (S k)
      (after w (rounds (openshift_query modelName) delay k)).
Proof.
  intros Hsum Hnot. unfold OpenShiftDeployment.poll.
  rewrite <- Hsum at 2. replace (S (k + l)) with (k + S l)%nat by lia.
  apply (loop_skip net (openshift_query modelName) delay maxAttempts
           openshift_verdict
           (OpenShiftDeployment.attempts net maxAttempts delay modelName)).
  - reflexivity.
  - intros. apply openshift_loop_S.
  - lia.
  - exact Hnot.
Qed.

Lemma rhods_poll_skip (k l : nat) (w : world RHODSIntegration.model) :
  S (k + l) = maxAttempts ->
  (forall j v, (j < k)%nat -> rhods_verdict (reply net w j) <> Done v) ->
  RHODSIntegration.poll net maxAttempts delay modelName w
  = RHODSIntegration.attempts net maxAttempts delay modelName (S l) (S k)
      (after w (rounds (rhods_query modelName) delay k)).
Proof.
  intros Hsum Hnot. unfold RHODSIntegration.poll.
  rewrite <- Hsum at 2. replace (S (k + l)) with (k + S l)%nat by lia.
  apply (loop_skip net (rhods_query modelName) delay maxAttempts
           rhods_verdict
           (RHODSIntegration.attempts net maxAttempts delay modelName)).
  - reflexivity.
  - intros. apply rhods_loop_S.
  - lia.
  - exact Hnot.
Qed.



(** After [k] attempts that were passed over, what attempt [k + 1]
    does. *)
Lemma openshift_poll_done (k : nat) (v : value)
    (w : world OpenShiftDeployment.deployment) :
  (k < maxAttempts)%nat ->
  (forall j v', (j < k)%nat -> openshift_verdict (reply net w j) <> Done v') ->
  openshift_verdict (reply net w k) = Done v ->
  OpenShiftDeployment.poll net maxAttempts delay modelName w
  = (Ret v, after w (rounds (openshift_query modelName) delay k
                     ++ [openshift_query modelName])).
Proof.
  intros Hk Hnot Hdone.
  rewrite (openshift_poll_skip k (maxAttempts - S k)) by (lia || done).
  rewrite openshift_loop_S. simpl trace. rewrite requests_app.
  rewrite requests_rounds by reflexivity.
  unfold openshift_verdict, reply in Hdone. rewrite Hdone.
  by rewrite after_after.
Qed.

Lemma rhods_poll_done (k : nat) (v : value) (w : world RHODSIntegration.model) :
  (k < maxAttempts)%nat ->
  (forall j v', (j < k)%nat -> rhods_verdict (reply net w j) <> Done v') ->
  rhods_verdict (reply net w k) = Done v ->
  RHODSIntegration.poll net maxAttempts delay modelName w
  = (Ret v, after w (rounds (rhods_query modelName) delay k
                     ++ [rhods_query modelName])).
Proof.
  intros Hk Hnot Hdone.
  rewrite (rhods_poll_skip k (maxAttempts - S k)) by (lia || done).
  rewrite rhods_loop_S. simpl trace. rewrite requests_app.
  rewrite requests_rounds by reflexivity.
  unfold rhods_verdict, reply in Hdone. rewrite Hdone.
  by rewrite after_after.
Qed.

End Sessions.

(** ** What the remote's verdict does to a session *)

Lemma requests_session (q : event) (delay : Z) (n : nat) :
  is_request q = true -> requests (rounds q delay n ++ [q]) = S n.
Proof.
  intros Hq. rewrite requests_app, requests_rounds by done. simpl.
  rewrite Hq. lia.
Qed.

(** C1, on the code: the remote reports [failed] at attempt 1 of 30 and
    [ready] afterwards. The session does not end at attempt 1: the loop
    sleeps, asks again, and returns the ready status of attempt 2. *)
Theorem failed_status_is_retried :
  has_status (observe OpenShiftDeployment.settle
                (reply net_failed_then_ready (@fresh OpenShiftDeployment.deployment) 0))
             "failed"
  /\ OpenShiftDeployment.monitorDeployment net_failed_then_ready "m" fresh
     = (Ret ready_body,
        after fresh [openshift_query "m"; EvSleep 5000; openshift_query "m"]).
Proof.
  split.
  - exists (VStr "failed"). split; reflexivity.
  - vm_compute. reflexivity.
Qed.

Section LastAttempt.
Context (net : env) (maxAttempts : nat) (delay : Z) (modelName : string).

Lemma openshift_poll_last_pending (k : nat)
    (w : world OpenShiftDeployment.deployment) :
  S k = maxAttempts ->
  (forall j v, (j < k)%nat -> openshift_verdict (reply net w j) <> Done v) ->
  openshift_verdict (reply net w k) = Pending ->
  OpenShiftDeployment.poll net maxAttempts delay modelName w
  = (Throw (Error "Deployment timeout"),
     after w (rounds (openshift_query modelName) delay maxAttempts)).
Proof.
  intros Hk Hnot Hpend.
  rewrite (openshift_poll_skip net maxAttempts delay modelName k 0)
    by (lia || done).
  rewrite openshift_loop_S. simpl trace.
  rewrite requests_app, requests_rounds by reflexivity.
  unfold openshift_verdict, reply in Hpend. rewrite Hpend.
  simpl. unfold throw. by rewrite after_after, rounds_snoc, Hk.
Qed.

Lemma openshift_poll_last_raise (k : nat) (e : error)
    (w : world OpenShiftDeployment.deployment) :
  S k = maxAttempts ->
  (forall j v, (j < k)%nat -> openshift_verdict (reply net w j) <> Done v) ->
  openshift_verdict (reply net w k) = Raise e ->
  OpenShiftDeployment.poll net maxAttempts delay modelName w
  = (Throw e, after w (rounds (openshift_query modelName) delay k
                       ++ [openshift_query modelName])).
Proof.
  intros Hk Hnot Hraise.
  rewrite (openshift_poll_skip net maxAttempts delay modelName k 0)
    by (lia || done).
  rewrite openshift_loop_S. simpl trace.
  rewrite requests_app, requests_rounds by reflexivity.
  unfold openshift_verdict, reply in Hraise. rewrite Hraise.
  rewrite Hk, Nat.eqb_refl. by rewrite after_after.
Qed.

Lemma rhods_poll_last_pending (k : nat) (w : world RHODSIntegration.model) :
  S k = maxAttempts ->
  (forall j v, (j < k)%nat -> rhods_verdict (reply net w j) <> Done v) ->
  rhods_verdict (reply net w k) = Pending ->
  RHODSIntegration.poll net maxAttempts delay modelName w
  = (Throw (Error "Deployment timeout"),
     after w (rounds (rhods_query modelName) delay maxAttempts)).
Proof.
  intros Hk Hnot Hpend.
  rewrite (rhods_poll_skip net maxAttempts delay modelName k 0)
    by (lia || done).
  rewrite rhods_loop_S. simpl trace.
  rewrite requests_app, requests_rounds by reflexivity.
  unfold rhods_verdict, reply in Hpend. rewrite Hpend.
  simpl. unfold throw. by rewrite after_after, rounds_snoc, Hk.
Qed.

(** An attempt that does not return, with attempts left in the budget,
    is followed by a sleep and the next attempt. *)
Lemma openshift_poll_goes_on (k l : nat)
    (w : world OpenShiftDeployment.deployment) :
  S (S k + l) = maxAttempts ->
  (forall j v, (j <= k)%nat -> openshift_verdict (reply net w j) <> Done v) ->
  OpenShiftDeployment.poll net maxAttempts delay modelName w
  = OpenShiftDeployment.attempts net maxAttempts delay modelName (S l) (S (S k))
      (after w (rounds (openshift_query modelName) delay (S k))).
Proof.
  intros Hsum Hnot. apply openshift_poll_skip; [done|].
  intros j v Hj. apply Hnot. lia.
Qed.

Lemma rhods_poll_goes_on (k l : nat) (w : world RHODSIntegration.model) :
  S (S k + l) = maxAttempts ->
  (forall j v, (j <= k)%nat -> rhods_verdict (reply net w j) <> Done v) ->
  RHODSIntegration.poll net maxAttempts delay modelName w
  = RHODSIntegration.attempts net maxAttempts delay modelName (S l) (S (S k))
      (after w (rounds (rhods_query modelName) delay (S k))).
Proof.
  intros Hsum Hnot. apply rhods_poll_skip; [done|].
  intros j v Hj. apply Hnot. lia.
Qed.

End LastAttempt.

Lemma openshift_in_progress_not_done (r : raw) (v : value) :
  in_progress openshift_stops (observe OpenShiftDeployment.settle r) ->
  openshift_verdict r <> Done v.
Proof.
  intros Hp%openshift_judge_pending. unfold openshift_verdict. by rewrite Hp.
Qed.

Lemma rhods_in_progress_not_done (r : raw) (v : value) :
  in_progress rhods_stops (observe RHODSIntegration.settle r) ->
  rhods_verdict r <> Done v.
Proof.
  intros Hp%rhods_judge_pending. unfold rhods_verdict. by rewrite Hp.
Qed.

Lemma openshift_not_ready_not_done (r : raw) (v : value) :
  ~ has_status (observe OpenShiftDeployment.settle r) "ready" ->
  openshift_verdict r <> Done v.
Proof.
  intros Hnot Hdone. apply openshift_judge_done in Hdone as (_ & Hready & _).
  auto.
Qed.

(** The remote's [failed] is swallowed by the loop's own [catch] when
    attempts are left, and thrown at the last attempt only. *)
Lemma openshift_failed_goes_on (net : env) (maxAttempts : nat) (delay : Z)
    (modelName : string) (k l : nat) (w : world OpenShiftDeployment.deployment) :
  S (S k + l) = maxAttempts ->
  (forall j, (j < k)%nat ->
     ~ has_status (observe OpenShiftDeployment.settle (reply net w j)) "ready") ->
  has_status (observe OpenShiftDeployment.settle (reply net w k)) "failed" ->
  OpenShiftDeployment.poll net maxAttempts delay modelName w
  = OpenShiftDeployment.attempts net maxAttempts delay modelName (S l) (S (S k))
      (after w (rounds (openshift_query modelName) delay (S k))).
Proof.
  intros Hsum Hnot (s & Hs & Hfailed). apply openshift_poll_goes_on; [done|].
  intros j v Hj. apply openshift_not_ready_not_done.
  destruct (decide (j = k)) as [->|Hne]; [|apply Hnot; lia].
  intros (s' & Hs' & Hready). rewrite Hs in Hs'. injection Hs' as <-.
  destruct s as [| | | |str| |]; try discriminate.
  simpl in *. apply String.eqb_eq in Hfailed, Hready. congruence.
Qed.

Lemma openshift_failed_at_last (net : env) (maxAttempts : nat) (delay : Z)
    (modelName : string) (k : nat) (x : value) (text : string)
    (w : world OpenShiftDeployment.deployment) :
  S k = maxAttempts ->
  (forall j, (j < k)%nat ->
     ~ has_status (observe OpenShiftDeployment.settle (reply net w j)) "ready") ->
  has_status (observe OpenShiftDeployment.settle (reply net w k)) "failed" ->
  get (observe OpenShiftDeployment.settle (reply net w k)) p_error = inr x ->
  to_string x = inr text ->
  OpenShiftDeployment.poll net maxAttempts delay modelName w
  = (Throw (Error ("Deployment failed: " +:+ text)),
     after w (rounds (openshift_query modelName) delay k
              ++ [openshift_query modelName])).
Proof.
  intros Hk Hnot (s & Hs & Hfailed) Hx Htext.
  apply openshift_poll_last_raise; [done| |].
  - intros j v Hj. apply openshift_not_ready_not_done, Hnot, Hj.
  - unfold openshift_verdict, openshift_judge. rewrite Hs, Hx, Htext.
    destruct s as [| | | |str| |]; try discriminate.
    unfold is_str in *. apply String.eqb_eq in Hfailed as ->. reflexivity.
Qed.

(** *** Reaching an attempt *)

Section Reached.
Context (net : env) (maxAttempts : nat) (delay : Z) (modelName : string).

(** Attempt [k + 1] of the budget is reached when none of the attempts
    before it returned. *)
Lemma openshift_reaches_intro (k : nat)
    (w : world OpenShiftDeployment.deployment) :
  (k < maxAttempts)%nat ->
  (forall j v, (j < k)%nat -> openshift_verdict (reply net w j) <> Done v) ->
  openshift_reaches net maxAttempts delay modelName w k.
Proof.
  intros Hk Hnot. exists (maxAttempts - S k)%nat. split; [lia|].
  apply openshift_poll_skip; [lia | exact Hnot].
Qed.

Lemma rhods_reaches_intro (k : nat) (w : world RHODSIntegration.model) :
  (k < maxAttempts)%nat ->
  (forall j v, (j < k)%nat -> rhods_verdict (reply net w j) <> Done v) ->
  rhods_reaches net maxAttempts delay modelName w k.
Proof.
  intros Hk Hnot. exists (maxAttempts - S k)%nat. split; [lia|].
  apply rhods_poll_skip; [lia | exact Hnot].
Qed.

Lemma openshift_reached_step (k l : nat)
    (w : world OpenShiftDeployment.deployment) :
  S (k + l) = maxAttempts ->
  OpenShiftDeployment.poll net maxAttempts delay modelName w
  = OpenShiftDeployment.attempts net maxAttempts delay modelName (S l) (S k)
      (after w (rounds (openshift_query modelName) delay k)) ->
  OpenShiftDeployment.poll net maxAttempts delay modelName w
  = match openshift_verdict (reply net w k) with
    | Done v =>
        (Ret v, after w (rounds (openshift_query modelName) delay k
                         ++ [openshift_query modelName]))
    | Raise e =>
        if (S k =? maxAttempts)%nat
        then (Throw e, after w (rounds (openshift_query modelName) delay k
                                ++ [openshift_query modelName]))
        else OpenShiftDeployment.attempts net maxAttempts delay modelName l
               (S (S k)) (after w (rounds (openshift_query modelName) delay (S k)))
    | Pending =>
        OpenShiftDeployment.attempts net maxAttempts delay modelName l
          (S (S k)) (after w (rounds (openshift_query modelName) delay (S k)))
    end.
Proof.
  intros Hsum ->. rewrite openshift_loop_S. simpl trace.
  rewrite requests_app, requests_rounds by reflexivity.
  unfold openshift_verdict, reply.
  by rewrite !after_after, rounds_snoc.
Qed.

Lemma rhods_reached_step (k l : nat) (w : world RHODSIntegration.model) :
  S (k + l) = maxAttempts ->
  RHODSIntegration.poll net maxAttempts delay modelName w
  = RHODSIntegration.attempts net maxAttempts delay modelName (S l) (S k)
      (after w (rounds (rhods_query modelName) delay k)) ->
  RHODSIntegration.poll net maxAttempts delay modelName w
  = match rhods_verdict (reply net w k) with
    | Done v =>
        (Ret v, after w (rounds (rhods_query modelName) delay k
                         ++ [rhods_query modelName]))
    | Raise e =>
        if (S k =? maxAttempts)%nat
        then (Throw e, after w (rounds (rhods_query modelName) delay k
                                ++ [rhods_query modelName]))
        else RHODSIntegration.attempts net maxAttempts delay modelName l
               (S (S k)) (after w (rounds (rhods_query modelName) delay (S k)))
    | Pending =>
        RHODSIntegration.attempts net maxAttempts delay modelName l
          (S (S k)) (after w (rounds (rhods_query modelName) delay (S k)))
    end.
Proof.
  intros Hsum ->. rewrite rhods_loop_S. simpl trace.
  rewrite requests_app, requests_rounds by reflexivity.
  unfold rhods_verdict, reply.
  by rewrite !after_after, rounds_snoc.
Qed.

(** An attempt that is passed over: the next one is reached, or the
    budget is used up and the session ends with the timeout. *)
Lemma openshift_reached_pending (k : nat)
    (w : world OpenShiftDeployment.deployment) :
  openshift_reaches net maxAttempts delay modelName w k ->
  openshift_verdict (reply net w k) = Pending ->
  ((S k < maxAttempts)%nat ->
   openshift_reaches net maxAttempts delay modelName w (S k))
  /\ (S k = maxAttempts ->
      OpenShiftDeployment.poll net maxAttempts delay modelName w
      = (Throw (Error "Deployment timeout"),
         after w (rounds (openshift_query modelName) delay maxAttempts))).
Proof.
  intros (l & Hsum & Hreach) Hpend.
  pose proof (openshift_reached_step k l w Hsum Hreach) as Hstep.
  rewrite Hpend in Hstep. split.
  - intros Hlt. destruct l as [|l]; [lia|].
    exists l. split; [lia | exact Hstep].
  - intros Hk. destruct l as [|l]; [|lia]. by rewrite Hstep, <- Hk.
Qed.

Lemma rhods_reached_pending (k : nat) (w : world RHODSIntegration.model) :
  rhods_reaches net maxAttempts delay modelName w k ->
  rhods_verdict (reply net w k) = Pending ->
  ((S k < maxAttempts)%nat ->
   rhods_reaches net maxAttempts delay modelName w (S k))
  /\ (S k = maxAttempts ->
      RHODSIntegration.poll net maxAttempts delay modelName w
      = (Throw (Error "Deployment timeout"),
         after w (rounds (rhods_query modelName) delay maxAttempts))).
Proof.
  intros (l & Hsum & Hreach) Hpend.
  pose proof (rhods_reached_step k l w Hsum Hreach) as Hstep.
  rewrite Hpend in Hstep. split.
  - intros Hlt. destruct l as [|l]; [lia|].
    exists l. split; [lia | exact Hstep].
  - intros Hk. destruct l as [|l]; [|lia]. by rewrite Hstep, <- Hk.
Qed.

Lemma openshift_reached_done (k : nat) (v : value)
    (w : world OpenShiftDeployment.deployment) :
  openshift_reaches net maxAttempts delay modelName w k ->
  openshift_verdict (reply net w k) = Done v ->
  OpenShiftDeployment.poll net maxAttempts delay modelName w
  = (Ret v, after w (rounds (openshift_query modelName) delay k
                     ++ [openshift_query modelName])).
Proof.
  intros (l & Hsum & Hreach) Hdone.
  rewrite (openshift_reached_step k l w Hsum Hreach). by rewrite Hdone.
Qed.

Lemma rhods_reached_done (k : nat) (v : value)
    (w : world RHODSIntegration.model) :
  rhods_reaches net maxAttempts delay modelName w k ->
  rhods_verdict (reply net w k) = Done v ->
  RHODSIntegration.poll net maxAttempts delay modelName w
  = (Ret v, after w (rounds (rhods_query modelName) delay k
                     ++ [rhods_query modelName])).
Proof.
  intros (l & Hsum & Hreach) Hdone.
  rewrite (rhods_reached_step k l w Hsum Hreach). by rewrite Hdone.
Qed.

Lemma openshift_reached_raise (k : nat) (e : error)
    (w : world OpenShiftDeployment.deployment) :
  S k = maxAttempts ->
  openshift_reaches net maxAttempts delay modelName w k ->
  openshift_verdict (reply net w k) = Raise e ->
  OpenShiftDeployment.poll net maxAttempts delay modelName w
  = (Throw e, after w (rounds (openshift_query modelName) delay k
                       ++ [openshift_query modelName])).
Proof.
  intros Hk (l & Hsum & Hreach) Hraise.
  rewrite (openshift_reached_step k l w Hsum Hreach), Hraise.
  by rewrite Hk, Nat.eqb_refl.
Qed.

Lemma rhods_reached_raise (k : nat) (e : error)
    (w : world RHODSIntegration.model) :
  S k = maxAttempts ->
  rhods_reaches net maxAttempts delay modelName w k ->
  rhods_verdict (reply net w k) = Raise e ->
  RHODSIntegration.poll net maxAttempts delay modelName w
  = (Throw e, after w (rounds (rhods_query modelName) delay k
                       ++ [rhods_query modelName])).
Proof.
  intros Hk (l & Hsum & Hreach) Hraise.
  rewrite (rhods_reached_step k l w Hsum Hreach), Hraise.
  by rewrite Hk, Nat.eqb_refl.
Qed.

End Reached.

(** C2 as stated fails: when the status query of the last attempt fails,
    what the caller gets is the timeout error, the same whatever the
    query's error was; that error is not passed on. Here no request gets
    through, the 30th included; a session in which every body fails to
    parse ends with the same error. *)
Lemma transport_error_is_not_reported :
  OpenShiftDeployment.settle
    (reply net_down (@fresh OpenShiftDeployment.deployment) 29)
  = inl (Error "connect ECONNREFUSED 10.0.0.1:443")
  /\ OpenShiftDeployment.monitorDeployment net_down "m" fresh
     = (Throw (Error "Deployment timeout"),
        after fresh (rounds (openshift_query "m") 5000 30))
  /\ fst (OpenShiftDeployment.monitorDeployment net_down "m" fresh)
     <> Throw (Error "connect ECONNREFUSED 10.0.0.1:443")
  /\ OpenShiftDeployment.monitorDeployment net_garbled "m" fresh
     = OpenShiftDeployment.monitorDeployment net_down "m" fresh.
Proof.
  assert (Heq : OpenShiftDeployment.monitorDeployment net_down "m" fresh
                = (Throw (Error "Deployment timeout"),
                   after fresh (rounds (openshift_query "m") 5000 30)))
    by (vm_compute; reflexivity).
  split; [reflexivity | split; [exact Heq | split]].
  - rewrite Heq. discriminate.
  - vm_compute. reflexivity.
Qed.

(** C2, amended: a status request that fails (transport error,
    unparseable body, non-2xx code) at an attempt the loop reaches never
    ends the session with that error. The loop sees a status that is none
    of its stop words (for OpenShift the local [unknown] value) and
    sleeps; when attempts are left it reaches the next one, and when the
    attempt was the last the session ends with the timeout error, which
    does not depend on the query's error. Holds for both integrations. *)
Theorem failed_query_is_swallowed (net : env) (maxAttempts : nat)
    (delay : Z) (modelName : string) (k : nat) :
  (forall w : world OpenShiftDeployment.deployment,
     let seen j := observe OpenShiftDeployment.settle (reply net w j) in
     openshift_reaches net maxAttempts delay modelName w k ->
     failed_exchange (reply net w k) = true ->
     has_status (seen k) "unknown"
     /\ ((S k < maxAttempts)%nat ->
         openshift_reaches net maxAttempts delay modelName w (S k))
     /\ (S k = maxAttempts ->
         OpenShiftDeployment.poll net maxAttempts delay modelName w
         = (Throw (Error "Deployment timeout"),
            after w (rounds (openshift_query modelName) delay maxAttempts))))
  /\ (forall w : world RHODSIntegration.model,
        let seen j := observe RHODSIntegration.settle (reply net w j) in
        rhods_reaches net maxAttempts delay modelName w k ->
        failed_exchange (reply net w k) = true ->
        in_progress rhods_stops (seen k)
        /\ ((S k < maxAttempts)%nat ->
            rhods_reaches net maxAttempts delay modelName w (S k))
        /\ (S k = maxAttempts ->
            RHODSIntegration.poll net maxAttempts delay modelName w
            = (Throw (Error "Deployment timeout"),
               after w (rounds (rhods_query modelName) delay maxAttempts)))).
Proof.
  split; intros w seen Hreach Hfail.
  - split.
    + destruct (openshift_failed_unknown _ Hfail) as (e & _ & Hobs).
      subst seen. simpl. rewrite Hobs. exists (VStr "unknown"). by split.
    + apply openshift_reached_pending; [exact Hreach|].
      by apply openshift_failed_pending.
  - split.
    + subst seen. simpl.
      destruct (rhods_failed_cases _ Hfail) as [(e & _ & ->) | (msg & ->)].
      * apply unknown_in_progress_rhods.
      * apply invalid_in_progress.
    + apply rhods_reached_pending; [exact Hreach|].
      by apply rhods_failed_pending.
Qed.

(** Two attempts, no request gets through: the second, last attempt is
    reached and ends the session with the timeout error. *)
Lemma failed_query_is_swallowed_witness :
  openshift_reaches net_down 2 5000 "m" fresh 1
  /\ failed_exchange (reply net_down (@fresh OpenShiftDeployment.deployment) 1)
     = true
  /\ OpenShiftDeployment.poll net_down 2 5000 "m" fresh
     = (Throw (Error "Deployment timeout"),
        after fresh (rounds (openshift_query "m") 5000 2)).
Proof.
  assert (H1 : openshift_reaches net_down 2 5000 "m" fresh 1).
  { exists 0%nat. split; [reflexivity | vm_compute; reflexivity]. }
  assert (H2 : failed_exchange
                 (reply net_down (@fresh OpenShiftDeployment.deployment) 1) = true)
    by reflexivity.
  split; [exact H1 | split; [exact H2 |]].
  exact (proj2 (proj2 (proj1 (failed_query_is_swallowed net_down 2 5000 "m" 1)
                         fresh H1 H2)) eq_refl).
Defined.



(** C4 as stated fails in two ways. For OpenShift, [succeeded] at
    attempt 1 does not end the session: with the remote answering
    [succeeded] throughout, all 30 attempts are used and the session times
    out. And the ready path prints the endpoint inside the [try]: a
    [ready] response whose endpoint does not convert to a string is not
    returned, the TypeError of the conversion is swallowed until the last
    attempt rethrows it. *)
Lemma ready_word_is_not_always_returned :
  (has_status (observe OpenShiftDeployment.settle
                 (reply net_succeeded (@fresh OpenShiftDeployment.deployment) 0))
              "succeeded"
   /\ OpenShiftDeployment.monitorDeployment net_succeeded "m" fresh
      = (Throw (Error "Deployment timeout"),
         after fresh (rounds (openshift_query "m") 5000 30)))
  /\ (has_status (observe OpenShiftDeployment.settle
                    (reply net_unprintable_endpoint
                       (@fresh OpenShiftDeployment.deployment) 0)) "ready"
      /\ OpenShiftDeployment.monitorDeployment net_unprintable_endpoint "m" fresh
         = (Throw unconvertible,
            after fresh (rounds (openshift_query "m") 5000 29
                         ++ [openshift_query "m"]))).
Proof.
  split; split.
  - exists (VStr "succeeded"). split; reflexivity.
  - vm_compute. reflexivity.
  - exists (VStr "ready"). split; reflexivity.
  - vm_compute. reflexivity.
Qed.

(** C4, amended: when the loop reaches attempt [k + 1 <= maxAttempts] and
    that attempt reads a ready word of the integration ([ready] for
    OpenShift; [ready] or [succeeded] for RHODS), with an endpoint that
    the line printed for it can convert, the session returns that status
    response, endpoint included, after exactly [k + 1] requests and [k]
    sleeps. *)
Theorem ready_status_ends_session (net : env) (maxAttempts : nat) (delay : Z)
    (modelName : string) (k : nat) :
  (forall w : world OpenShiftDeployment.deployment,
     let seen j := observe OpenShiftDeployment.settle (reply net w j) in
     openshift_reaches net maxAttempts delay modelName w k ->
     has_status (seen k) "ready" ->
     prints (seen k) p_endpoint ->
     OpenShiftDeployment.poll net maxAttempts delay modelName w
     = (Ret (seen k),
        after w (rounds (openshift_query modelName) delay k
                 ++ [openshift_query modelName]))
     /\ requests (trace (snd (OpenShiftDeployment.poll net maxAttempts delay
                                modelName w)))
        = (requests (trace w) + S k)%nat)
  /\ (forall w : world RHODSIntegration.model,
        let seen j := observe RHODSIntegration.settle (reply net w j) in
        rhods_reaches net maxAttempts delay modelName w k ->
        has_status (seen k) "ready" \/ has_status (seen k) "succeeded" ->
        prints (seen k) p_endpoint ->
        RHODSIntegration.poll net maxAttempts delay modelName w
        = (Ret (seen k),
           after w (rounds (rhods_query modelName) delay k
                    ++ [rhods_query modelName]))
        /\ requests (trace (snd (RHODSIntegration.poll net maxAttempts delay
                                   modelName w)))
           = (requests (trace w) + S k)%nat).
Proof.
  split; intros w seen Hreach Hready Hprints.
  - assert (Heq := openshift_reached_done net maxAttempts delay modelName k
                     (seen k) w Hreach).
    rewrite Heq.
    + split; [reflexivity|]. simpl.
      by rewrite requests_app, requests_session.
    + by apply openshift_judge_done.
  - assert (Heq := rhods_reached_done net maxAttempts delay modelName k
                     (seen k) w Hreach).
    rewrite Heq.
    + split; [reflexivity|]. simpl.
      by rewrite requests_app, requests_session.
    + by apply rhods_judge_done.
Qed.

(** The remote answers [failed], then [ready]: the failure report of
    attempt 1 is swallowed, attempt 2 is reached and its ready status is
    returned after two requests. *)
Lemma ready_status_ends_session_witness :
  openshift_reaches net_failed_then_ready 30 5000 "m" fresh 1
  /\ has_status (observe OpenShiftDeployment.settle
                   (reply net_failed_then_ready
                      (@fresh OpenShiftDeployment.deployment) 1)) "ready"
  /\ prints (observe OpenShiftDeployment.settle
               (reply net_failed_then_ready
                  (@fresh OpenShiftDeployment.deployment) 1)) p_endpoint
  /\ OpenShiftDeployment.poll net_failed_then_ready 30 5000 "m" fresh
     = (Ret ready_body,
        after fresh [openshift_query "m"; EvSleep 5000; openshift_query "m"])
  /\ requests (trace (snd (OpenShiftDeployment.poll net_failed_then_ready 30
                             5000 "m" fresh))) = 2%nat.
Proof.
  assert (H0 : openshift_reaches net_failed_then_ready 30 5000 "m" fresh 1).
  { exists 28%nat. split; [reflexivity | vm_compute; reflexivity]. }
  assert (H1 : has_status (observe OpenShiftDeployment.settle
                             (reply net_failed_then_ready
                                (@fresh OpenShiftDeployment.deployment) 1))
                          "ready").
  { exists (VStr "ready"). split; reflexivity. }
  assert (H2 : prints (observe OpenShiftDeployment.settle
                         (reply net_failed_then_ready
                            (@fresh OpenShiftDeployment.deployment) 1))
                      p_endpoint).
  { exists (VStr "https://m.example/infer"). split; reflexivity. }
  split; [exact H0 | split; [exact H1 | split; [exact H2 |]]].
  exact (proj1 (ready_status_ends_session net_failed_then_ready 30 5000 "m" 1)
           fresh H0 H1 H2).
Defined.

(** C5 as stated fails: with the body [null] on every response, the last
    attempt's TypeError, of reading [status], is what the caller gets; and
    with a status that does not convert to a string it is the TypeError
    of the conversion. *)
Lemma null_body_raises_type_error :
  OpenShiftDeployment.monitorDeployment net_null "m" fresh
  = (Throw (TypeError "Cannot read properties of null (reading 'status')"),
     after fresh (rounds (openshift_query "m") 5000 29 ++ [openshift_query "m"]))
  /\ ~ named_outcome
        (fst (OpenShiftDeployment.monitorDeployment net_null "m" fresh))
  /\ OpenShiftDeployment.monitorDeployment net_unprintable_status "m" fresh
     = (Throw (TypeError "Cannot convert object to primitive value"),
        after fresh (rounds (openshift_query "m") 5000 29
                     ++ [openshift_query "m"]))
  /\ ~ named_outcome
        (fst (OpenShiftDeployment.monitorDeployment net_unprintable_status
                "m" fresh)).
Proof.
  assert (Heq : OpenShiftDeployment.monitorDeployment net_null "m" fresh
    = (Throw (TypeError "Cannot read properties of null (reading 'status')"),
       after fresh (rounds (openshift_query "m") 5000 29 ++ [openshift_query "m"])))
    by (vm_compute; reflexivity).
  assert (Heq' :
    OpenShiftDeployment.monitorDeployment net_unprintable_status "m" fresh
    = (Throw (TypeError "Cannot convert object to primitive value"),
       after fresh (rounds (openshift_query "m") 5000 29 ++ [openshift_query "m"])))
    by (vm_compute; reflexivity).
  split; [exact Heq|]. split; [|split; [exact Heq'|]].
  - rewrite Heq. simpl. intros [[v Hv] | [[m Hm] | Ht]]; discriminate.
  - rewrite Heq'. simpl. intros [[v Hv] | [[m Hm] | Ht]]; discriminate.
Qed.

(** C5, amended: a session ends in exactly one way, after at most
    [maxAttempts] requests: it returns the status response of an attempt
    that reads a ready word and whose endpoint converts; or it throws the
    failure report of an attempt whose status is a failed word; or, with
    the whole budget used, it throws the TypeError of the last attempt,
    of reading [status] off a body such as [null] or of converting a
    property that does not convert; or, with the whole budget used, it
    throws the timeout error. *)
Theorem poll_has_one_outcome (net : env) (maxAttempts : nat) (delay : Z)
    (modelName : string) :
  (forall w : world OpenShiftDeployment.deployment,
     let seen j := observe OpenShiftDeployment.settle (reply net w j) in
     let out := OpenShiftDeployment.poll net maxAttempts delay modelName w in
     exists n, (n <= maxAttempts)%nat
       /\ requests (trace (snd out)) = (requests (trace w) + n)%nat
       /\ ((exists k, n = S k /\ has_status (seen k) "ready"
                      /\ prints (seen k) p_endpoint
                      /\ fst out = Ret (seen k))
           \/ (exists k x, n = S k
                           /\ has_status (seen k) "failed"
                           /\ get (seen k) p_error = inr x
                           /\ convertible x = true
                           /\ fst out = Throw (Error ("Deployment failed: "
                                                      +:+ to_text x)))
           \/ (exists k te, n = S k /\ n = maxAttempts
                            /\ (get (seen k) p_status = inl te
                                \/ (te = unconvertible
                                    /\ exists p x, get (seen k) p = inr x
                                                   /\ convertible x = false))
                            /\ fst out = Throw te)
           \/ (n = maxAttempts
               /\ fst out = Throw (Error "Deployment timeout"))))
  /\ (forall w : world RHODSIntegration.model,
        let seen j := observe RHODSIntegration.settle (reply net w j) in
        let out := RHODSIntegration.poll net maxAttempts delay modelName w in
        exists n, (n <= maxAttempts)%nat
          /\ requests (trace (snd out)) = (requests (trace w) + n)%nat
          /\ ((exists k, n = S k
                         /\ (has_status (seen k) "ready"
                             \/ has_status (seen k) "succeeded")
                         /\ prints (seen k) p_endpoint
                         /\ fst out = Ret (seen k))
              \/ (exists k x, n = S k
                              /\ (has_status (seen k) "failed"
                                  \/ has_status (seen k) "error")
                              /\ get (seen k) p_error = inr x
                              /\ convertible (or_else x (VStr "Unknown error"))
                                 = true
                              /\ fst out
                                 = Throw (Error ("Deployment failed: "
                                     +:+ to_text (or_else x (VStr "Unknown error")))))
              \/ (exists k te, n = S k /\ n = maxAttempts
                               /\ (get (seen k) p_status = inl te
                                   \/ (te = unconvertible
                                       /\ exists p x, get (seen k) p = inr x
                                                      /\ convertible x = false))
                               /\ fst out = Throw te)
              \/ (n = maxAttempts
                  /\ fst out = Throw (Error "Deployment timeout")))).
Proof.
  split; intros w seen out; subst out.
  - pose proof (openshift_poll_ended net maxAttempts delay modelName w) as Hend.
    inversion Hend as [n v Hn _ Hv Heq | n e Hn _ He Heq | _ _ Heq]; simpl.
    + apply openshift_judge_done in Hv as (-> & Hready & Hprints).
      exists (S n). split; [lia|]. split.
      { by rewrite requests_app, requests_session. }
      left. exists n. by repeat split.
    + exists (S n). split; [lia|]. split.
      { by rewrite requests_app, requests_session. }
      right.
      apply openshift_judge_raise in He
        as [Hte | [[-> Hconv] | [Hf (x & Hx & Hconv & ->)]]].
      * right. left. exists n, e. split; [done|]. split; [done|]. by split; [left|].
      * right. left. exists n, unconvertible.
        split; [done|]. split; [done|]. by split; [right|].
      * left. exists n, x. by repeat split.
    + exists maxAttempts. split; [lia|]. split.
      { by rewrite requests_app, requests_rounds. }
      right. right. right. by split.
  - pose proof (rhods_poll_ended net maxAttempts delay modelName w) as Hend.
    inversion Hend as [n v Hn _ Hv Heq | n e Hn _ He Heq | _ _ Heq]; simpl.
    + apply rhods_judge_done in Hv as (-> & Hready & Hprints).
      exists (S n). split; [lia|]. split.
      { by rewrite requests_app, requests_session. }
      left. exists n. by repeat split.
    + exists (S n). split; [lia|]. split.
      { by rewrite requests_app, requests_session. }
      right.
      apply rhods_judge_raise in He
        as [Hte | [[-> Hconv] | [Hf (x & Hx & Hconv & ->)]]].
      * right. left. exists n, e. split; [done|]. split; [done|]. by split; [left|].
      * right. left. exists n, unconvertible.
        split; [done|]. split; [done|]. by split; [right|].
      * left. exists n, x. by repeat split.
    + exists maxAttempts. split; [lia|]. split.
      { by rewrite requests_app, requests_rounds. }
      right. right. right. by split.
Qed.

(** ** No two requests without a sleep in between *)

Lemma rounds_paced (q : event) (delay : Z) (n : nat) (tail : list event) :
  tail = [] \/ tail = [q] ->
  paced delay (rounds q delay n ++ tail).
Proof.
  intros Htail. induction n as [|n IH]; intros i j ei ej Hij Hi Hri Hj Hrj.
  - apply lookup_lt_Some in Hj. destruct Htail as [-> | ->]; simpl in Hj; lia.
  - simpl in Hi, Hj. destruct i as [|[|i]]; simpl in Hi.
    + destruct j as [|[|j]]; [lia | |].
      * simpl in Hj. injection Hj as <-. discriminate Hrj.
      * exists 1%nat. split; [lia | reflexivity].
    + injection Hi as <-. discriminate Hri.
    + destruct j as [|[|j]]; [lia | lia |]. simpl in Hj.
      destruct (IH i j ei ej) as (k & Hk & Hsleep); [lia | done..|].
      exists (S (S k)). split; [lia | exact Hsleep].
Qed.

Lemma ended_trace {R} (net : env) (judge : raw -> verdict) (q : event)
    (delay : Z) (budget : nat) (w : world R) (out : result value * world R) :
  ended net judge q delay budget w out ->
  exists n tail, (tail = [] \/ tail = [q])
    /\ snd out = after w (rounds q delay n ++ tail).
Proof.
  intros [n v _ _ _ | n e _ _ _ | _ _].
  - exists n, [q]. auto.
  - exists n, [q]. auto.
  - exists budget, []. rewrite app_nil_r. auto.
Qed.

(** C8: the events a poll session adds to the trace are such that between
    any two status requests there is a sleep of the loop's interval;
    the instance's store is as it was. Holds for both integrations, and so
    for their [monitorDeployment] with 5000 and 10000 ms. *)
Theorem poll_sleeps_between_requests (net : env) (maxAttempts : nat)
    (delay : Z) (modelName : string) :
  (forall w : world OpenShiftDeployment.deployment,
     exists tr, snd (OpenShiftDeployment.poll net maxAttempts delay modelName w)
                = after w tr
                /\ paced delay tr)
  /\ (forall w : world RHODSIntegration.model,
        exists tr, snd (RHODSIntegration.poll net maxAttempts delay modelName w)
                   = after w tr
                   /\ paced delay tr).
Proof.
  split; intros w.
  - destruct (ended_trace _ _ _ _ _ _ _
                (openshift_poll_ended net maxAttempts delay modelName w))
      as (n & tail & Htail & Heq).
    exists (rounds (openshift_query modelName) delay n ++ tail).
    split; [exact Heq | by apply rounds_paced].
  - destruct (ended_trace _ _ _ _ _ _ _
                (rhods_poll_ended net maxAttempts delay modelName w))
      as (n & tail & Htail & Heq).
    exists (rounds (rhods_query modelName) delay n ++ tail).
    split; [exact Heq | by apply rounds_paced].
Qed.

(** ** The status query *)

Lemma reply_0 {R} (net : env) (w : world R) :
  reply net w 0 = http net (requests (trace w)).
Proof. unfold reply. by rewrite Nat.add_0_r. Qed.

Lemma openshift_status_query (net : env) (modelName : string)
    (w : world OpenShiftDeployment.deployment) :
  OpenShiftDeployment.getDeploymentStatus net modelName w
  = (Ret (observe OpenShiftDeployment.settle (reply net w 0)),
     after w [openshift_query modelName]).
Proof.
  rewrite reply_0.
  unfold OpenShiftDeployment.getDeploymentStatus, OpenShiftDeployment.makeRequest,
    try_catch, exchange, observe, ret.
  by destruct (OpenShiftDeployment.settle _).
Qed.

Lemma rhods_status_query (net : env) (modelName : string)
    (w : world RHODSIntegration.model) :
  RHODSIntegration.getDeploymentStatus net modelName w
  = (Ret (observe RHODSIntegration.settle (reply net w 0)),
     after w [rhods_query modelName]).
Proof.
  rewrite reply_0.
  unfold RHODSIntegration.getDeploymentStatus, RHODSIntegration.makeRHODSRequest,
    try_catch, exchange, observe, ret.
  by destruct (RHODSIntegration.settle _).
Qed.

(** C9 as stated fails for RHODS: on a body that does not parse, the
    wrapper resolves, and the status query returns an object without a
    [status]. *)
Lemma rhods_unparseable_is_not_unknown :
  failed_exchange (reply net_garbled (@fresh RHODSIntegration.model) 0) = true
  /\ RHODSIntegration.getDeploymentStatus net_garbled "m" fresh
     = (Ret (VObj [("success", VBool false);
                   ("error", VStr "Invalid response: Unexpected token < in JSON at position 0")]),
        after fresh [rhods_query "m"])
  /\ ~ has_status
        (VObj [("success", VBool false);
               ("error", VStr "Invalid response: Unexpected token < in JSON at position 0")])
        "unknown".
Proof.
  split; [reflexivity | split; [reflexivity |]].
  intros (s & Hs & Hstr). injection Hs as <-. discriminate Hstr.
Qed.

(** C9, amended: the status query returns a value and never throws,
    whatever the outcome of the request. When the request failed, the
    value carries the error message in its [error] field; its [status] is
    [unknown] in every failure case for OpenShift, and for RHODS when the
    wrapper rejects (transport error, or non-2xx with a readable body),
    while an unparseable body makes the RHODS query return the wrapper's
    [{success: false, error}] object, which has no [status]. *)
Theorem status_query_never_throws (net : env) (modelName : string) :
  (forall w : world OpenShiftDeployment.deployment,
     exists v,
       OpenShiftDeployment.getDeploymentStatus net modelName w
       = (Ret v, after w [openshift_query modelName])
       /\ (failed_exchange (reply net w 0) = true ->
           exists e, OpenShiftDeployment.settle (reply net w 0) = inl e
                     /\ has_status v "unknown"
                     /\ get v p_error = inr (VStr (message e))))
  /\ (forall w : world RHODSIntegration.model,
        exists v,
          RHODSIntegration.getDeploymentStatus net modelName w
          = (Ret v, after w [rhods_query modelName])
          /\ (failed_exchange (reply net w 0) = true ->
              (exists e, RHODSIntegration.settle (reply net w 0) = inl e
                         /\ has_status v "unknown"
                         /\ get v p_error = inr (VStr (message e)))
              \/ (exists msg,
                    RHODSIntegration.settle (reply net w 0)
                    = inr (RHODSIntegration.invalid msg)
                    /\ get v p_status = inr VUndefined
                    /\ get v p_error = inr (VStr ("Invalid response: " +:+ msg))))
          /\ (forall statusCode msg,
                reply net w 0 = Reply statusCode (BadJson msg) ->
                v = RHODSIntegration.invalid msg)).
Proof.
  split; intros w.
  - eexists. split; [apply openshift_status_query|].
    intros (e & He & ->)%openshift_failed_unknown. exists e.
    split; [exact He | split; [|reflexivity]].
    exists (VStr "unknown"). by split.
  - eexists. split; [apply rhods_status_query|]. split.
    + intros Hfail. unfold observe.
      destruct (reply net w 0) as [e|code [msg|response]]; simpl in *.
      * left. exists e. split; [done | split; [|done]].
        exists (VStr "unknown"). by split.
      * right. exists msg. by repeat split.
      * apply negb_true_iff in Hfail. rewrite Hfail.
        destruct (http_error response code) as [te|e].
        -- right. exists (message te). by repeat split.
        -- left. exists e. split; [done | split; [|done]].
           exists (VStr "unknown"). by split.
    + intros code msg ->. reflexivity.
Qed.

(** The OpenShift status query on a dead network, and the RHODS one on a
    body that does not parse. *)
Lemma status_query_never_throws_witness :
  failed_exchange (reply net_down (@fresh OpenShiftDeployment.deployment) 0) = true
  /\ (exists v,
        OpenShiftDeployment.getDeploymentStatus net_down "m" fresh
        = (Ret v, after fresh [openshift_query "m"])
        /\ has_status v "unknown"
        /\ get v p_error = inr (VStr "connect ECONNREFUSED 10.0.0.1:443")).
Proof.
  assert (H : failed_exchange
                (reply net_down (@fresh OpenShiftDeployment.deployment) 0) = true)
    by reflexivity.
  split; [exact H|].
  destruct (proj1 (status_query_never_throws net_down "m") fresh)
    as (v & Heq & Hfailed).
  destruct (Hfailed H) as (e & He & Hst & Herr).
  exists v. split; [exact Heq | split; [exact Hst |]].
  injection He as <-. exact Herr.
Defined.

(** ** Submission, inference and the store *)

Lemma openshift_poll_store (net : env) (maxAttempts : nat) (delay : Z)
    (modelName : string) (w : world OpenShiftDeployment.deployment) :
  store (snd (OpenShiftDeployment.poll net maxAttempts delay modelName w))
  = store w.
Proof.
  destruct (ended_trace _ _ _ _ _ _ _
              (openshift_poll_ended net maxAttempts delay modelName w))
    as (n & tail & _ & ->).
  reflexivity.
Qed.

Lemma accepted_endpoint (r : raw) (response : value) :
  accepted r = Some response ->
  exists statusCode ok ep,
    r = Reply statusCode (Json response) /\ is_2xx statusCode = true
    /\ get response p_success = inr ok /\ truthy ok = true
    /\ get response p_endpoint = inr ep.
Proof.
  destruct r as [e|code [msg|v]]; simpl; try discriminate.
  destruct (is_2xx code) eqn:Hcode; [|discriminate].
  destruct (get v p_success) as [te|ok] eqn:Hok; [discriminate|].
  destruct (truthy ok) eqn:Ht; [|discriminate].
  intros [= <-]. exists code, ok.
  destruct v; simpl in Hok; try discriminate; eexists; by repeat split.
Qed.

(** An accepted deploy request: the record is written, then the session
    of [monitorDeployment] runs on that store. *)
Lemma deployModel_accepted (net : env) (modelConfig : OpenShiftDeployment.modelConfig)
    (w : world OpenShiftDeployment.deployment) (response ep : value) :
  accepted (reply net w 0) = Some response ->
  get response p_endpoint = inr ep ->
  let submitted :=
    World (<[OpenShiftDeployment.name modelConfig :=
               OpenShiftDeployment.Deployment ep "deploying"
                 (clock net (S (length (trace w))))]> (store w))
          (trace w ++ [EvRequest "POST" "/deploy"]) in
  OpenShiftDeployment.deployModel net modelConfig w
  = if convertible ep
    then OpenShiftDeployment.monitorDeployment net
           (OpenShiftDeployment.name modelConfig) submitted
    else (Throw unconvertible, submitted).
Proof.
  intros (code & ok & ep' & Hr & Hcode & Hok & Ht & Hep)%accepted_endpoint Hep'.
  rewrite Hep' in Hep. injection Hep as <-. rewrite reply_0 in Hr.
  unfold OpenShiftDeployment.deployModel, OpenShiftDeployment.makeRequest,
    OpenShiftDeployment.now, OpenShiftDeployment.deployments_set,
    bind, try_catch, exchange, read, record_event, show, to_string.
  rewrite Hr. simpl. rewrite Hcode, Hok, Ht, Hep'. simpl.
  rewrite length_app. simpl. rewrite Nat.add_1_r.
  by destruct (convertible ep).
Qed.

(** Whatever follows the write (the line printed for the endpoint, the
    monitoring session), the store stays as the write left it. *)
Lemma deployModel_accepted_store (net : env)
    (modelConfig : OpenShiftDeployment.modelConfig)
    (w : world OpenShiftDeployment.deployment) (response ep : value) :
  accepted (reply net w 0) = Some response ->
  get response p_endpoint = inr ep ->
  store (snd (OpenShiftDeployment.deployModel net modelConfig w))
  = <[OpenShiftDeployment.name modelConfig :=
        OpenShiftDeployment.Deployment ep "deploying"
          (clock net (S (length (trace w))))]> (store w).
Proof.
  intros Hacc Hep.
  rewrite (deployModel_accepted net modelConfig w response ep Hacc Hep).
  destruct (convertible ep); [|reflexivity].
  unfold OpenShiftDeployment.monitorDeployment.
  by rewrite openshift_poll_store.
Qed.

(** Any other outcome of the deploy request: an error, one request, the
    store untouched. *)
Lemma deployModel_refused (net : env) (modelConfig : OpenShiftDeployment.modelConfig)
    (w : world OpenShiftDeployment.deployment) :
  accepted (reply net w 0) = None ->
  exists e, OpenShiftDeployment.deployModel net modelConfig w
            = (Throw e, after w [EvRequest "POST" "/deploy"]).
Proof.
  rewrite reply_0.
  unfold OpenShiftDeployment.deployModel, OpenShiftDeployment.makeRequest,
    bind, try_catch, exchange, read, throw, record_event, after.
  destruct (http net (requests (trace w))) as [e|code [msg|response]];
    simpl; eauto.
  destruct (is_2xx code); simpl.
  - destruct (get response p_success) as [te|ok]; simpl; eauto.
    destruct (truthy ok); [discriminate|]. intros _.
    destruct (get response p_error) as [te|e]; simpl; eauto.
    unfold show.
    destruct (to_string (or_else e (VStr "Deployment failed"))); simpl; eauto.
  - intros _. destruct (http_error response code); simpl; eauto.
Qed.

(** C6: a deploy request answered 2xx with a body whose [success] is
    truthy leaves, under the submitted name, a record with status
    [deploying] and the endpoint of the response; on any other outcome of
    the request, [deployModel] throws after that one request and the store
    is as it was. *)
Theorem deploy_records_only_on_success (net : env)
    (modelConfig : OpenShiftDeployment.modelConfig)
    (w : world OpenShiftDeployment.deployment) :
  let out := OpenShiftDeployment.deployModel net modelConfig w in
  (forall response,
     accepted (reply net w 0) = Some response ->
     exists ep,
       get response p_endpoint = inr ep
       /\ store (snd out)
          = <[OpenShiftDeployment.name modelConfig :=
                OpenShiftDeployment.Deployment ep "deploying"
                  (clock net (S (length (trace w))))]> (store w)
       /\ store (snd out) !! OpenShiftDeployment.name modelConfig
          = Some (OpenShiftDeployment.Deployment ep "deploying"
                    (clock net (S (length (trace w))))))
  /\ (accepted (reply net w 0) = None ->
      (exists e, fst out = Throw e)
      /\ snd out = after w [EvRequest "POST" "/deploy"]
      /\ store (snd out) = store w
      /\ requests (trace (snd out)) = S (requests (trace w))).
Proof.
  intros out. subst out. split.
  - intros response Hacc.
    destruct (accepted_endpoint _ _ Hacc) as (_ & _ & ep & _ & _ & _ & _ & Hep).
    exists ep. split; [exact Hep|].
    rewrite (deployModel_accepted_store net modelConfig w response ep Hacc Hep).
    split; [reflexivity | apply lookup_insert_eq].
  - intros Hnone. destruct (deployModel_refused net modelConfig w Hnone) as [e ->].
    simpl. split; [eauto|]. split; [reflexivity|]. split; [reflexivity|].
    rewrite requests_app. simpl. lia.
Qed.

(** An accepted submission of ["m"] into an empty store, and a refused
    one. *)
Lemma deploy_records_only_on_success_witness :
  accepted (reply net_accepting (@fresh OpenShiftDeployment.deployment) 0)
  = Some (VObj [("success", VBool true);
                ("endpoint", VStr "https://m.example/infer")])
  /\ store (snd (OpenShiftDeployment.deployModel net_accepting some_config fresh))
       !! "m"
     = Some (OpenShiftDeployment.Deployment (VStr "https://m.example/infer")
               "deploying" "2024-01-01T00:00:00.000Z")
  /\ accepted (reply net_refusing (@fresh OpenShiftDeployment.deployment) 0) = None
  /\ store (snd (OpenShiftDeployment.deployModel net_refusing some_config fresh))
     = ∅.
Proof.
  assert (H1 : accepted (reply net_accepting
                           (@fresh OpenShiftDeployment.deployment) 0)
               = Some (VObj [("success", VBool true);
                             ("endpoint", VStr "https://m.example/infer")]))
    by reflexivity.
  assert (H2 : accepted (reply net_refusing
                           (@fresh OpenShiftDeployment.deployment) 0) = None)
    by reflexivity.
  split; [exact H1 | split; [| split; [exact H2 |]]].
  - destruct (proj1 (deploy_records_only_on_success net_accepting some_config fresh)
                _ H1) as (ep & Hep & _ & Hlookup).
    injection Hep as <-. exact Hlookup.
  - exact (proj1 (proj2 (proj2 (proj2 (deploy_records_only_on_success
                                         net_refusing some_config fresh) H2)))).
Defined.

(** C7: inference on a name with no record in the store throws the
    "not deployed" error at once; the world is as it was, so no request
    has been issued. *)
Theorem inference_requires_record (net : env) (modelName : string) (data : value)
    (w : world OpenShiftDeployment.deployment) :
  store w !! modelName = None ->
  OpenShiftDeployment.runInference net modelName data w
  = (Throw (Error ("Model " +:+ modelName +:+ " not deployed")), w)
  /\ requests (trace (snd (OpenShiftDeployment.runInference net modelName data w)))
     = requests (trace w).
Proof.
  intros Hnone.
  assert (Heq : OpenShiftDeployment.runInference net modelName data w
                = (Throw (Error ("Model " +:+ modelName +:+ " not deployed")), w)).
  { unfold OpenShiftDeployment.runInference, OpenShiftDeployment.deployments_get,
      bind, try_catch, throw.
    by rewrite Hnone. }
  by rewrite Heq.
Qed.

(** [infer("ghost-model", ...)] on a new instance. *)
Lemma inference_requires_record_witness :
  store (@fresh OpenShiftDeployment.deployment) !! "ghost-model" = None
  /\ OpenShiftDeployment.runInference net_accepting "ghost-model"
       (VObj [("prompt", VStr "Hello")]) fresh
     = (Throw (Error "Model ghost-model not deployed"), fresh).
Proof.
  assert (H : store (@fresh OpenShiftDeployment.deployment) !! "ghost-model" = None)
    by reflexivity.
  split; [exact H|].
  exact (proj1 (inference_requires_record net_accepting "ghost-model"
                  (VObj [("prompt", VStr "Hello")]) fresh H)).
Defined.

Lemma get_fields_of (v : value) (p : prop) (x : value) :
  get v p = inr x -> field (prop_name p) (fields_of v) = x.
Proof. destruct v; simpl; intros [= <-]; reflexivity. Qed.

Lemma runInference_store (net : env) (modelName : string) (data : value)
    (w : world OpenShiftDeployment.deployment) :
  store (snd (OpenShiftDeployment.runInference net modelName data w)) = store w.
Proof.
  unfold OpenShiftDeployment.runInference, OpenShiftDeployment.deployments_get,
    OpenShiftDeployment.makeRequest, bind, try_catch, exchange, read, throw, ret.
  destruct (store w !! modelName); [|reflexivity].
  destruct (OpenShiftDeployment.settle _) as [e|response]; [reflexivity|].
  by destruct (get response p_result).
Qed.

(** C10: a poll session leaves the store as it was, whatever its
    outcome, and so does the record under the polled name; the status
    query and inference leave it as well. [deployModel] writes the
    [deploying] record under the submitted name when the deploy request is
    accepted and leaves the store as it was otherwise; every other entry
    is as before. *)
Theorem only_submission_writes_store (net : env) (maxAttempts : nat) (delay : Z)
    (modelName : string) (data : value)
    (modelConfig : OpenShiftDeployment.modelConfig)
    (w : world OpenShiftDeployment.deployment) :
  store (snd (OpenShiftDeployment.poll net maxAttempts delay modelName w))
  = store w
  /\ store (snd (OpenShiftDeployment.monitorDeployment net modelName w))
       !! modelName
     = store w !! modelName
  /\ store (snd (OpenShiftDeployment.getDeploymentStatus net modelName w))
     = store w
  /\ store (snd (OpenShiftDeployment.runInference net modelName data w))
     = store w
  /\ store (snd (OpenShiftDeployment.deployModel net modelConfig w))
     = match accepted (reply net w 0) with
       | Some response =>
           <[OpenShiftDeployment.name modelConfig :=
               OpenShiftDeployment.Deployment
                 (field "endpoint" (fields_of response)) "deploying"
                 (clock net (S (length (trace w))))]> (store w)
       | None => store w
       end
  /\ delete (OpenShiftDeployment.name modelConfig)
       (store (snd (OpenShiftDeployment.deployModel net modelConfig w)))
     = delete (OpenShiftDeployment.name modelConfig) (store w).
Proof.
  assert (Hdeploy :
    store (snd (OpenShiftDeployment.deployModel net modelConfig w))
    = match accepted (reply net w 0) with
      | Some response =>
          <[OpenShiftDeployment.name modelConfig :=
              OpenShiftDeployment.Deployment
                (field "endpoint" (fields_of response)) "deploying"
                (clock net (S (length (trace w))))]> (store w)
      | None => store w
      end).
  { destruct (accepted (reply net w 0)) as [response|] eqn:Hacc.
    - destruct (accepted_endpoint _ _ Hacc) as (_ & _ & ep & _ & _ & _ & _ & Hep).
      rewrite (deployModel_accepted_store net modelConfig w response ep Hacc Hep).
      pose proof (get_fields_of _ _ _ Hep) as Hfield.
      change (prop_name p_endpoint) with "endpoint" in Hfield.
      by rewrite Hfield.
    - by destruct (deployModel_refused net modelConfig w Hacc) as [e ->]. }
  split; [apply openshift_poll_store|].
  split; [unfold OpenShiftDeployment.monitorDeployment;
          by rewrite openshift_poll_store|].
  split; [by rewrite openshift_status_query|].
  split; [apply runInference_store|].
  split; [exact Hdeploy|].
  rewrite Hdeploy. destruct (accepted (reply net w 0)); [|reflexivity].
  apply delete_insert_eq.
Qed.

(** ** Beyond the claims: budget of a session *)

Lemma sleeps_app (a b : list event) :
  sleeps (a ++ b) = (sleeps a + sleeps b)%nat.
Proof.
  induction a as [|[m p|ms] a IH]; simpl; [reflexivity | exact IH | by rewrite IH].
Qed.

Lemma slept_app (a b : list event) : slept (a ++ b) = slept a + slept b.
Proof.
  induction a as [|[m p|ms] a IH]; simpl; [reflexivity | exact IH | lia].
Qed.

Lemma sleeps_rounds (q : event) (delay : Z) (n : nat) :
  is_request q = true -> sleeps (rounds q delay n) = n.
Proof.
  intros Hq. destruct q as [m p|ms]; [|discriminate].
  induction n as [|n IH]; simpl; [reflexivity | by rewrite IH].
Qed.

Lemma slept_rounds (q : event) (delay : Z) (n : nat) :
  is_request q = true -> slept (rounds q delay n) = Z.of_nat n * delay.
Proof.
  intros Hq. destruct q as [m p|ms]; [|discriminate].
  induction n as [|n IH]; [reflexivity|].
  change (slept (rounds (EvRequest m p) delay (S n)))
    with (delay + slept (rounds (EvRequest m p) delay n)).
  rewrite IH. lia.
Qed.

Lemma ended_budget {R} (net : env) (judge : raw -> verdict) (q : event)
    (delay : Z) (budget : nat) (w : world R) (out : result value * world R) :
  is_request q = true ->
  ended net judge q delay budget w out ->
  exists tr, snd out = after w tr
    /\ (Nat.min 1 budget <= requests tr <= budget)%nat
    /\ (sleeps tr <= requests tr <= S (sleeps tr))%nat
    /\ slept tr = Z.of_nat (sleeps tr) * delay.
Proof.
  intros Hq. assert (Hq' := Hq). destruct q as [m p|ms]; [|discriminate].
  intros [n v Hn _ _ | n e Hn _ _ | _ _]; eexists; (split; [reflexivity|]).
  - rewrite requests_session, sleeps_app, slept_app, sleeps_rounds,
      slept_rounds by done. simpl. rewrite Nat.add_0_r, Z.add_0_r.
    destruct budget; repeat split; lia.
  - rewrite requests_session, sleeps_app, slept_app, sleeps_rounds,
      slept_rounds by done. simpl. rewrite Nat.add_0_r, Z.add_0_r.
    destruct budget; repeat split; lia.
  - rewrite requests_rounds, sleeps_rounds, slept_rounds by done.
    repeat split; lia.
Qed.

(** X1: a poll session issues at least one (when the budget is not
    empty) and at most [maxAttempts] status requests; it sleeps after each
    request except possibly the last, each time for [delay], so for
    [delay] times the number of sleeps in all. Holds for both
    integrations. *)
Theorem poll_stays_within_budget (net : env) (maxAttempts : nat) (delay : Z)
    (modelName : string) :
  (forall w : world OpenShiftDeployment.deployment,
     exists tr,
       snd (OpenShiftDeployment.poll net maxAttempts delay modelName w)
       = after w tr
       /\ (Nat.min 1 maxAttempts <= requests tr <= maxAttempts)%nat
       /\ (sleeps tr <= requests tr <= S (sleeps tr))%nat
       /\ slept tr = Z.of_nat (sleeps tr) * delay)
  /\ (forall w : world RHODSIntegration.model,
        exists tr,
          snd (RHODSIntegration.poll net maxAttempts delay modelName w)
          = after w tr
          /\ (Nat.min 1 maxAttempts <= requests tr <= maxAttempts)%nat
          /\ (sleeps tr <= requests tr <= S (sleeps tr))%nat
          /\ slept tr = Z.of_nat (sleeps tr) * delay).
Proof.
  split; intros w.
  - apply (ended_budget net openshift_verdict (openshift_query modelName));
      [reflexivity | apply openshift_poll_ended].
  - apply (ended_budget net rhods_verdict (rhods_query modelName));
      [reflexivity | apply rhods_poll_ended].
Qed.

(** The constants of [monitorDeployment]: at most 30 status requests,
    and at most 150 seconds of sleep in all with OpenShift, 300 seconds
    with RHODS. *)
Corollary monitorDeployment_time_bound (net : env) (modelName : string) :
  (forall w : world OpenShiftDeployment.deployment,
     exists tr,
       snd (OpenShiftDeployment.monitorDeployment net modelName w) = after w tr
       /\ (requests tr <= 30)%nat /\ 0 <= slept tr <= 150000)
  /\ (forall w : world RHODSIntegration.model,
        exists tr,
          snd (RHODSIntegration.monitorDeployment net modelName w) = after w tr
          /\ (requests tr <= 30)%nat /\ 0 <= slept tr <= 300000).
Proof.
  split; intros w.
  - destruct (ended_budget net openshift_verdict (openshift_query modelName)
                5000 30 w _ eq_refl (openshift_poll_ended net 30 5000 modelName w))
      as (tr & Heq & Hreq & Hsl & Ht).
    exists tr. split; [exact Heq|]. lia.
  - destruct (ended_budget net rhods_verdict (rhods_query modelName)
                10000 30 w _ eq_refl (rhods_poll_ended net 30 10000 modelName w))
      as (tr & Heq & Hreq & Hsl & Ht).
    exists tr. split; [exact Heq|]. lia.
Qed.

(** ** Beyond the claims: what the last attempt reports *)

Lemma has_status_get (v : value) (lit : string) (p : prop) :
  has_status v lit -> exists x, get v p = inr x.
Proof.
  intros (s & Hs & _). destruct v; simpl in *; try discriminate; eauto.
Qed.

Lemma is_str_word (s : value) (lit : string) :
  is_str s lit = true -> s = VStr lit.
Proof.
  destruct s; simpl; try discriminate. by intros ->%String.eqb_eq.
Qed.

(** X2: when the loop reaches the last attempt of the budget and the
    remote reports a failed word there, the session throws
    [Deployment failed: ] followed by the response's [error] converted to
    a string (for RHODS, [Unknown error] in place of a falsy [error]);
    an [error] that does not convert makes the session throw the
    TypeError of the conversion instead. Where the response has no
    [error], OpenShift's message ends in [undefined] and RHODS's in
    [Unknown error]. *)
Theorem failure_report_at_last_attempt (net : env) (maxAttempts : nat)
    (delay : Z) (modelName : string) (k : nat) :
  S k = maxAttempts ->
  (forall w : world OpenShiftDeployment.deployment,
     let seen j := observe OpenShiftDeployment.settle (reply net w j) in
     openshift_reaches net maxAttempts delay modelName w k ->
     has_status (seen k) "failed" ->
     exists x, get (seen k) p_error = inr x
       /\ OpenShiftDeployment.poll net maxAttempts delay modelName w
          = (match to_string x with
             | inr text => Throw (Error ("Deployment failed: " +:+ text))
             | inl te => Throw te
             end,
             after w (rounds (openshift_query modelName) delay k
                      ++ [openshift_query modelName])))
  /\ (forall w : world RHODSIntegration.model,
        let seen j := observe RHODSIntegration.settle (reply net w j) in
        rhods_reaches net maxAttempts delay modelName w k ->
        has_status (seen k) "failed" \/ has_status (seen k) "error" ->
        exists x, get (seen k) p_error = inr x
          /\ RHODSIntegration.poll net maxAttempts delay modelName w
             = (match to_string (or_else x (VStr "Unknown error")) with
                | inr text => Throw (Error ("Deployment failed: " +:+ text))
                | inl te => Throw te
                end,
                after w (rounds (rhods_query modelName) delay k
                         ++ [rhods_query modelName])))
  /\ to_string VUndefined = inr "undefined"
  /\ to_string (or_else VUndefined (VStr "Unknown error")) = inr "Unknown error".
Proof.
  intros Hk. split; [|split; [|split; reflexivity]]; intros w seen Hreach Hfailed.
  - destruct (has_status_get _ _ p_error Hfailed) as [x Hx].
    exists x. split; [exact Hx|].
    assert (Hraise : exists e,
               openshift_verdict (reply net w k) = Raise e
               /\ Throw e = match to_string x with
                            | inr text => Throw (Error ("Deployment failed: "
                                                        +:+ text))
                            | inl te => @Throw value te
                            end).
    { destruct Hfailed as (s & Hs & Hstr). apply is_str_word in Hstr as ->.
      unfold openshift_verdict, openshift_judge. fold (seen k).
      rewrite Hs, Hx. change (is_str (VStr "failed") "ready") with false.
      change (is_str (VStr "failed") "failed") with true. cbv iota.
      destruct (to_string x); eauto. }
    destruct Hraise as (e & He & <-).
    by apply openshift_reached_raise.
  - assert (Hx : exists x, get (seen k) p_error = inr x).
    { destruct Hfailed as [H|H]; exact (has_status_get _ _ p_error H). }
    destruct Hx as [x Hx]. exists x. split; [exact Hx|].
    assert (Hraise : exists e,
               rhods_verdict (reply net w k) = Raise e
               /\ Throw e
                  = match to_string (or_else x (VStr "Unknown error")) with
                    | inr text => Throw (Error ("Deployment failed: " +:+ text))
                    | inl te => @Throw value te
                    end).
    { unfold rhods_verdict, rhods_judge. fold (seen k).
      destruct Hfailed as [(s & Hs & Hstr) | (s & Hs & Hstr)];
        apply is_str_word in Hstr as ->; rewrite Hs, Hx.
      - change (is_str (VStr "failed") "ready") with false.
        change (is_str (VStr "failed") "succeeded") with false.
        change (is_str (VStr "failed") "failed") with true. cbv iota. simpl orb.
        cbv iota. destruct (to_string (or_else x (VStr "Unknown error"))); eauto.
      - change (is_str (VStr "error") "ready") with false.
        change (is_str (VStr "error") "succeeded") with false.
        change (is_str (VStr "error") "failed") with false.
        change (is_str (VStr "error") "error") with true. cbv iota. simpl orb.
        cbv iota. destruct (to_string (or_else x (VStr "Unknown error"))); eauto. }
    destruct Hraise as (e & He & <-).
    by apply rhods_reached_raise.
Qed.

(** One attempt, and the remote reports [failed] without an [error]. *)
Lemma failure_report_at_last_attempt_witness :
  (1 = 1)%nat
  /\ openshift_reaches net_failed_bare 1 5000 "m" fresh 0
  /\ has_status (observe OpenShiftDeployment.settle
                   (reply net_failed_bare
                      (@fresh OpenShiftDeployment.deployment) 0)) "failed"
  /\ OpenShiftDeployment.poll net_failed_bare 1 5000 "m" fresh
     = (Throw (Error "Deployment failed: undefined"),
        after fresh [openshift_query "m"]).
Proof.
  assert (H1 : openshift_reaches net_failed_bare 1 5000 "m" fresh 0).
  { exists 0%nat. split; reflexivity. }
  assert (H2 : has_status (observe OpenShiftDeployment.settle
                             (reply net_failed_bare
                                (@fresh OpenShiftDeployment.deployment) 0))
                          "failed").
  { exists (VStr "failed"). split; reflexivity. }
  split; [reflexivity | split; [exact H1 | split; [exact H2 |]]].
  destruct (proj1 (failure_report_at_last_attempt net_failed_bare 1 5000 "m" 0
                     eq_refl) fresh H1 H2) as (x & Hx & Heq).
  injection Hx as <-. exact Heq.
Defined.

(** ** Beyond the claims: inference *)

Lemma openshift_settle_resolves (r : raw) (v : value) :
  OpenShiftDeployment.settle r = inr v
  <-> exists statusCode, r = Reply statusCode (Json v) /\ is_2xx statusCode = true.
Proof.
  split.
  - destruct r as [e|code [msg|response]]; simpl; try discriminate.
    destruct (is_2xx code) eqn:Hcode.
    + intros [= <-]. eauto.
    + destruct (http_error response code); discriminate.
  - intros (code & -> & Hcode). simpl. by rewrite Hcode.
Qed.

Lemma get_throws (v : value) (p : prop) :
  (exists te, get v p = inl te) <-> v = VNull \/ v = VUndefined.
Proof.
  split.
  - intros [te Hte]. destruct v; simpl in Hte; try discriminate; auto.
  - intros [-> | ->]; simpl; eauto.
Qed.

(** X3: RHODS inference on a name without a record in [this.models]
    throws the "not deployed" error and leaves the world as it was: no
    request is issued. *)
Theorem rhods_inference_requires_record (net : env) (modelName : string)
    (data parameters : value) (w : world RHODSIntegration.model) :
  store w !! modelName = None ->
  RHODSModels.runInference net modelName data parameters w
  = (Throw (Error ("Model " +:+ modelName +:+ " not deployed")), w).
Proof.
  intros Hnone.
  unfold RHODSModels.runInference, RHODSModels.models_get, bind, try_catch, throw.
  by rewrite Hnone.
Qed.

Lemma rhods_inference_requires_record_witness :
  store (@fresh RHODSIntegration.model) !! "ghost-model" = None
  /\ RHODSModels.runInference net_500 "ghost-model"
       (VObj [("prompt", VStr "Hello")]) (VObj []) fresh
     = (Throw (Error "Model ghost-model not deployed"), fresh).
Proof.
  assert (H : store (@fresh RHODSIntegration.model) !! "ghost-model" = None)
    by reflexivity.
  split; [exact H|].
  exact (rhods_inference_requires_record net_500 "ghost-model"
           (VObj [("prompt", VStr "Hello")]) (VObj []) fresh H).
Defined.

(** X4: the two integrations differ on a response outside 2xx whose body
    parses: RHODS inference does not look at the status code and returns
    the body as the result, OpenShift inference throws. Either way one
    request is issued. *)
Theorem inference_and_status_code (net : env) (modelName : string)
    (data parameters : value) (statusCode : Z) (body x : value) :
  is_2xx statusCode = false ->
  get body p_result = inr x ->
  (forall w : world RHODSIntegration.model,
     is_Some (store w !! modelName) ->
     reply net w 0 = Reply statusCode (Json body) ->
     RHODSModels.runInference net modelName data parameters w
     = (Ret body, after w [EvRequest "POST" "/infer"]))
  /\ (forall w : world OpenShiftDeployment.deployment,
        is_Some (store w !! modelName) ->
        reply net w 0 = Reply statusCode (Json body) ->
        exists e,
          OpenShiftDeployment.runInference net modelName data w
          = (Throw e, after w [EvRequest "POST" "/infer"])).
Proof.
  intros Hcode Hx. split; intros w [d Hd] Hr; rewrite reply_0 in Hr.
  - unfold RHODSModels.runInference, RHODSModels.models_get,
      RHODSModels.makeInferenceRequest, bind, try_catch, exchange, read, ret.
    rewrite Hd, Hr. simpl. by rewrite Hx.
  - unfold OpenShiftDeployment.runInference, OpenShiftDeployment.deployments_get,
      OpenShiftDeployment.makeRequest, bind, try_catch, exchange, read, throw.
    rewrite Hd, Hr. simpl. rewrite Hcode.
    destruct (http_error body statusCode); simpl; eauto.
Qed.

(** A 500 whose body is [{"result": "pong"}], for a model that has a
    record. *)
Lemma inference_and_status_code_witness :
  is_2xx 500 = false
  /\ get (VObj [("result", VStr "pong")]) p_result = inr (VStr "pong")
  /\ is_Some (store with_model !! "m")
  /\ reply net_500 with_model 0 = Reply 500 (Json (VObj [("result", VStr "pong")]))
  /\ RHODSModels.runInference net_500 "m" (VObj []) (VObj []) with_model
     = (Ret (VObj [("result", VStr "pong")]),
        after with_model [EvRequest "POST" "/infer"]).
Proof.
  assert (H1 : is_2xx 500 = false) by reflexivity.
  assert (H2 : get (VObj [("result", VStr "pong")]) p_result = inr (VStr "pong"))
    by reflexivity.
  assert (H3 : is_Some (store with_model !! "m")) by (eexists; reflexivity).
  assert (H4 : reply net_500 with_model 0
               = Reply 500 (Json (VObj [("result", VStr "pong")])))
    by reflexivity.
  split; [exact H1 | split; [exact H2 | split; [exact H3 | split; [exact H4 |]]]].
  exact (proj1 (inference_and_status_code net_500 "m" (VObj []) (VObj []) 500
                  (VObj [("result", VStr "pong")]) (VStr "pong") H1 H2)
           with_model H3 H4).
Defined.

(** X5: OpenShift inference for a name that has a record issues exactly
    one request, never sleeps, and returns a value exactly when the
    response is 2xx with a body that parses to something other than
    [null]; the value is that body. *)
Theorem openshift_inference_single_request (net : env) (modelName : string)
    (data : value) (w : world OpenShiftDeployment.deployment) :
  is_Some (store w !! modelName) ->
  snd (OpenShiftDeployment.runInference net modelName data w)
  = after w [EvRequest "POST" "/infer"]
  /\ forall v,
       fst (OpenShiftDeployment.runInference net modelName data w) = Ret v
       <-> exists statusCode,
             reply net w 0 = Reply statusCode (Json v)
             /\ is_2xx statusCode = true
             /\ v <> VNull /\ v <> VUndefined.
Proof.
  intros [d Hd]. rewrite reply_0.
  unfold OpenShiftDeployment.runInference, OpenShiftDeployment.deployments_get,
    OpenShiftDeployment.makeRequest, bind, try_catch, exchange, read, throw, ret.
  rewrite Hd.
  destruct (OpenShiftDeployment.settle (http net (requests (trace w))))
    as [e|response] eqn:Hsettle; simpl.
  - split; [reflexivity|]. intros v. split; [discriminate|].
    intros (code & Hr & Hcode & _).
    assert (OpenShiftDeployment.settle (http net (requests (trace w))) = inr v)
      by (apply openshift_settle_resolves; eauto).
    congruence.
  - apply openshift_settle_resolves in Hsettle as (code & Hr & Hcode).
    destruct (get response p_result) as [te|x] eqn:Hres; simpl.
    + split; [reflexivity|]. intros v. split; [discriminate|].
      intros (code' & Hr' & _ & Hnull & Hundef).
      rewrite Hr in Hr'. injection Hr' as _ <-.
      destruct (proj1 (get_throws response p_result)) as [Hv|Hv];
        [eauto | congruence | congruence].
    + split; [reflexivity|]. intros v. split.
      * intros [= <-]. exists code. split; [done | split; [done |]].
        split; intros ->; discriminate.
      * intros (code' & Hr' & _). rewrite Hr in Hr'. by injection Hr' as _ <-.
Qed.

Lemma openshift_inference_single_request_witness :
  is_Some (store with_deployment !! "m")
  /\ snd (OpenShiftDeployment.runInference net_500 "m" (VObj []) with_deployment)
     = after with_deployment [EvRequest "POST" "/infer"].
Proof.
  assert (H : is_Some (store with_deployment !! "m")) by (eexists; reflexivity).
  split; [exact H|].
  exact (proj1 (openshift_inference_single_request net_500 "m" (VObj [])
                  with_deployment H)).
Defined.

(** ** Beyond the claims: submission *)

Lemma rhods_poll_store (net : env) (maxAttempts : nat) (delay : Z)
    (modelName : string) (w : world RHODSIntegration.model) :
  store (snd (RHODSIntegration.poll net maxAttempts delay modelName w))
  = store w.
Proof.
  destruct (ended_trace _ _ _ _ _ _ _
              (rhods_poll_ended net maxAttempts delay modelName w))
    as (n & tail & _ & ->).
  reflexivity.
Qed.

Lemma get_key_fields_of (v : value) (key : string) (x : value) :
  get_key v key = inr x -> field key (fields_of v) = x.
Proof. destruct v; simpl; intros [= <-]; reflexivity. Qed.

Lemma rhods_deployModel_accepted (net : env) (name : string)
    (w : world RHODSIntegration.model) (response : value) :
  accepted (reply net w 0) = Some response ->
  let submitted :=
    World (<[name :=
               RHODSIntegration.Model
                 (field "model_id" (fields_of response)) "deploying"
                 (field "endpoint" (fields_of response))
                 (clock net (S (length (trace w))))]> (store w))
          (trace w ++ [EvRequest "POST" "/api/models/deploy"]) in
  RHODSModels.deployModel net name w
  = if convertible (field "endpoint" (fields_of response))
    then RHODSIntegration.monitorDeployment net name submitted
    else (Throw unconvertible, submitted).
Proof.
  intros (code & ok & ep & Hr & Hcode & Hok & Ht & Hep)%accepted_endpoint.
  rewrite reply_0 in Hr.
  assert (Hid : get_key response "model_id"
                = inr (field "model_id" (fields_of response))).
  { destruct response; simpl in Hok |- *; try discriminate; reflexivity. }
  pose proof (get_fields_of _ _ _ Hep) as Hfield.
  change (prop_name p_endpoint) with "endpoint" in Hfield.
  unfold RHODSModels.deployModel, RHODSModels.authenticate,
    RHODSIntegration.makeRHODSRequest, RHODSModels.now, RHODSModels.models_set,
    bind, try_catch, exchange, read, read_key, record_event, ret, show,
    to_string.
  simpl. rewrite Hr. simpl. rewrite Hcode, Hok, Ht, Hid, Hep. simpl.
  rewrite length_app, Hfield. simpl. rewrite Nat.add_1_r.
  by destruct (convertible ep).
Qed.

Lemma rhods_deployModel_accepted_store (net : env) (name : string)
    (w : world RHODSIntegration.model) (response : value) :
  accepted (reply net w 0) = Some response ->
  store (snd (RHODSModels.deployModel net name w))
  = <[name := RHODSIntegration.Model
                (field "model_id" (fields_of response)) "deploying"
                (field "endpoint" (fields_of response))
                (clock net (S (length (trace w))))]> (store w).
Proof.
  intros Hacc. rewrite (rhods_deployModel_accepted _ _ _ _ Hacc).
  destruct (convertible _); [|reflexivity].
  unfold RHODSIntegration.monitorDeployment. by rewrite rhods_poll_store.
Qed.

Lemma rhods_deployModel_refused (net : env) (name : string)
    (w : world RHODSIntegration.model) :
  accepted (reply net w 0) = None ->
  exists e, RHODSModels.deployModel net name w
            = (Throw e, after w [EvRequest "POST" "/api/models/deploy"]).
Proof.
  rewrite reply_0.
  unfold RHODSModels.deployModel, RHODSModels.authenticate,
    RHODSIntegration.makeRHODSRequest,
    bind, try_catch, exchange, read, throw, record_event, after, ret.
  simpl.
  destruct (http net (requests (trace w))) as [e|code [msg|response]];
    simpl; eauto.
  destruct (is_2xx code); simpl.
  - destruct (get response p_success) as [te|ok]; simpl; eauto.
    destruct (truthy ok); [discriminate|]. intros _.
    destruct (get response p_error) as [te|e]; simpl; eauto.
    unfold show.
    destruct (to_string (or_else e (VStr "Model deployment failed")));
      simpl; eauto.
  - intros _. destruct (http_error response code); simpl; eauto.
Qed.

Lemma only_submission_store (net : env)
    (modelConfig : OpenShiftDeployment.modelConfig)
    (w : world OpenShiftDeployment.deployment) :
  store (snd (OpenShiftDeployment.deployModel net modelConfig w))
  = match accepted (reply net w 0) with
    | Some response =>
        <[OpenShiftDeployment.name modelConfig :=
            OpenShiftDeployment.Deployment
              (field "endpoint" (fields_of response)) "deploying"
              (clock net (S (length (trace w))))]> (store w)
    | None => store w
    end.
Proof.
  destruct (accepted (reply net w 0)) as [response|] eqn:Hacc.
  - destruct (accepted_endpoint _ _ Hacc) as (_ & _ & ep & _ & _ & _ & _ & Hep).
    rewrite (deployModel_accepted_store net modelConfig w response ep Hacc Hep).
    pose proof (get_fields_of _ _ _ Hep) as Hfield.
    change (prop_name p_endpoint) with "endpoint" in Hfield.
    by rewrite Hfield.
  - by destruct (deployModel_refused net modelConfig w Hacc) as [e ->].
Qed.

(** X6: RHODS [deployModel] writes a record only for a deploy request
    answered 2xx with a truthy [success]: the record holds the response's
    [model_id] and [endpoint] and the status [deploying]. Any other
    outcome throws after that one request and leaves [this.models] as it
    was; for a body that does not parse the error is the wrapper's
    [Invalid response] message. *)
Theorem rhods_deploy_records_only_on_success (net : env) (name : string)
    (w : world RHODSIntegration.model) :
  let out := RHODSModels.deployModel net name w in
  (forall response,
     accepted (reply net w 0) = Some response ->
     store (snd out)
     = <[name := RHODSIntegration.Model
                   (field "model_id" (fields_of response)) "deploying"
                   (field "endpoint" (fields_of response))
                   (clock net (S (length (trace w))))]> (store w))
  /\ (accepted (reply net w 0) = None ->
      (exists e, fst out = Throw e)
      /\ snd out = after w [EvRequest "POST" "/api/models/deploy"])
  /\ (forall statusCode msg,
        reply net w 0 = Reply statusCode (BadJson msg) ->
        fst out = Throw (Error ("Invalid response: " +:+ msg))).
Proof.
  intros out. subst out. split; [|split].
  - intros response Hacc.
    by rewrite (rhods_deployModel_accepted_store _ _ _ _ Hacc).
  - intros Hnone. destruct (rhods_deployModel_refused net name w Hnone) as [e ->].
    simpl. eauto.
  - intros code msg Hr. rewrite reply_0 in Hr.
    unfold RHODSModels.deployModel, RHODSModels.authenticate,
      RHODSIntegration.makeRHODSRequest,
      bind, try_catch, exchange, read, throw, ret.
    simpl. rewrite Hr. reflexivity.
Qed.

Lemma rhods_deploy_records_only_on_success_witness :
  accepted (reply net_garbled (@fresh RHODSIntegration.model) 0) = None
  /\ reply net_garbled (@fresh RHODSIntegration.model) 0
     = Reply 200 (BadJson "Unexpected token < in JSON at position 0")
  /\ RHODSModels.deployModel net_garbled "m" fresh
     = (Throw (Error "Invalid response: Unexpected token < in JSON at position 0"),
        after fresh [EvRequest "POST" "/api/models/deploy"]).
Proof.
  assert (H1 : accepted (reply net_garbled (@fresh RHODSIntegration.model) 0)
               = None) by reflexivity.
  assert (H2 : reply net_garbled (@fresh RHODSIntegration.model) 0
               = Reply 200 (BadJson "Unexpected token < in JSON at position 0"))
    by reflexivity.
  split; [exact H1 | split; [exact H2 |]].
  pose proof (rhods_deploy_records_only_on_success net_garbled "m" fresh)
    as (_ & Hrefused & Hbad).
  destruct (Hrefused H1) as [_ Hsnd]. specialize (Hbad _ _ H2).
  destruct (RHODSModels.deployModel net_garbled "m" fresh) as [r w'].
  simpl in *. by rewrite Hbad, Hsnd.
Defined.

(** X7: the record written by an accepted [deployModel] is still there
    when monitoring is over, whatever its outcome (ready, failure or
    timeout): inference on that name passes the local check afterwards
    and issues its request. *)
Theorem record_outlives_monitoring (net : env)
    (modelConfig : OpenShiftDeployment.modelConfig) (data response : value)
    (w : world OpenShiftDeployment.deployment) :
  accepted (reply net w 0) = Some response ->
  let w1 := snd (OpenShiftDeployment.deployModel net modelConfig w) in
  is_Some (store w1 !! OpenShiftDeployment.name modelConfig)
  /\ snd (OpenShiftDeployment.runInference net
            (OpenShiftDeployment.name modelConfig) data w1)
     = after w1 [EvRequest "POST" "/infer"].
Proof.
  intros Hacc w1.
  assert (Hsome : is_Some (store w1 !! OpenShiftDeployment.name modelConfig)).
  { subst w1.
    destruct (accepted_endpoint _ _ Hacc) as (_ & _ & ep & _ & _ & _ & _ & Hep).
    rewrite (deployModel_accepted_store net modelConfig w response ep Hacc Hep).
    rewrite lookup_insert_eq. eauto. }
  split; [exact Hsome|]. destruct Hsome as [d Hd].
  unfold OpenShiftDeployment.runInference, OpenShiftDeployment.deployments_get,
    OpenShiftDeployment.makeRequest, bind, try_catch, exchange, read, throw, ret.
  rewrite Hd.
  destruct (OpenShiftDeployment.settle _) as [e|v]; [reflexivity|].
  by destruct (get v p_result).
Qed.

(** The deploy request is accepted and monitoring times out; inference
    on ["m"] then goes to the network. *)
Lemma record_outlives_monitoring_witness :
  accepted (reply net_never_ready (@fresh OpenShiftDeployment.deployment) 0)
  = Some (VObj [("success", VBool true);
                ("endpoint", VStr "https://m.example/infer")])
  /\ fst (OpenShiftDeployment.deployModel net_never_ready some_config fresh)
     = Throw (Error "Deployment timeout")
  /\ requests (trace (snd (OpenShiftDeployment.runInference net_never_ready "m"
                            (VObj [])
                            (snd (OpenShiftDeployment.deployModel net_never_ready
                                    some_config fresh)))))
     = 32%nat.
Proof.
  assert (H : accepted (reply net_never_ready
                          (@fresh OpenShiftDeployment.deployment) 0)
              = Some (VObj [("success", VBool true);
                            ("endpoint", VStr "https://m.example/infer")]))
    by reflexivity.
  split; [exact H | split; [vm_compute; reflexivity |]].
  pose proof (proj2 (record_outlives_monitoring net_never_ready some_config
                       (VObj []) _ fresh H)) as Heq.
  change (OpenShiftDeployment.name some_config) with "m" in Heq.
  rewrite Heq. vm_compute. reflexivity.
Defined.

(** X8: names are not checked for uniqueness: an accepted [deployModel]
    for a name that already has a record replaces that record. After two
    accepted submissions of one name the store is the original one with
    the second record alone under that name. *)
Theorem redeploy_replaces_record (net : env)
    (first second : OpenShiftDeployment.modelConfig) (r1 r2 : value)
    (w : world OpenShiftDeployment.deployment) :
  OpenShiftDeployment.name first = OpenShiftDeployment.name second ->
  accepted (reply net w 0) = Some r1 ->
  let w1 := snd (OpenShiftDeployment.deployModel net first w) in
  accepted (reply net w1 0) = Some r2 ->
  store (snd (OpenShiftDeployment.deployModel net second w1))
  = <[OpenShiftDeployment.name second :=
        OpenShiftDeployment.Deployment
          (field "endpoint" (fields_of r2)) "deploying"
          (clock net (S (length (trace w1))))]> (store w).
Proof.
  intros Hname Hacc1 w1 Hacc2.
  pose proof (only_submission_store net second w1) as H2.
  rewrite Hacc2 in H2. rewrite H2.
  subst w1. pose proof (only_submission_store net first w) as H1.
  rewrite Hacc1 in H1. rewrite H1, Hname. apply insert_insert_eq.
Qed.

(** ["m"] is submitted twice; the second answer names another endpoint. *)
Lemma redeploy_replaces_record_witness :
  OpenShiftDeployment.name some_config = OpenShiftDeployment.name some_config
  /\ accepted (reply net_redeploy (@fresh OpenShiftDeployment.deployment) 0)
     = Some (VObj [("success", VBool true);
                   ("endpoint", VStr "https://m.example/infer")])
  /\ accepted (reply net_redeploy
                 (snd (OpenShiftDeployment.deployModel net_redeploy some_config
                         fresh)) 0)
     = Some (VObj [("success", VBool true);
                   ("endpoint", VStr "https://m2.example/infer")])
  /\ store (snd (OpenShiftDeployment.deployModel net_redeploy some_config
                   (snd (OpenShiftDeployment.deployModel net_redeploy some_config
                           fresh))))
     = {[ "m" := OpenShiftDeployment.Deployment
                   (VStr "https://m2.example/infer") "deploying"
                   "2024-01-01T00:00:00.000Z" ]}.
Proof.
  assert (H1 : accepted (reply net_redeploy
                           (@fresh OpenShiftDeployment.deployment) 0)
               = Some (VObj [("success", VBool true);
                             ("endpoint", VStr "https://m.example/infer")]))
    by reflexivity.
  assert (H2 : accepted (reply net_redeploy
                           (snd (OpenShiftDeployment.deployModel net_redeploy
                                   some_config fresh)) 0)
               = Some (VObj [("success", VBool true);
                             ("endpoint", VStr "https://m2.example/infer")]))
    by (vm_compute; reflexivity).
  split; [reflexivity | split; [exact H1 | split; [exact H2 |]]].
  rewrite (redeploy_replaces_record net_redeploy some_config some_config _ _
             fresh eq_refl H1 H2).
  reflexivity.
Defined.

(** ** Beyond the claims: polling does not look at the store *)

Section LoopStore.
Context {R : Type} (net : env) (q : event) (delay : Z) (maxAttempts : nat).
Context (judge : raw -> verdict) (loop : nat -> nat -> M R value).

Hypothesis loop_O : forall a w,
  loop 0 a w = (Throw (Error "Deployment timeout"), w).
Hypothesis loop_S : forall l a w,
  loop (S l) a w =
    match judge (http net (requests (trace w))) with
    | Done v => (Ret v, after w [q])
    | Raise e =>
        if (a =? maxAttempts)%nat then (Throw e, after w [q])
        else loop l (S a) (after w [q; EvSleep delay])
    | Pending => loop l (S a) (after w [q; EvSleep delay])
    end.

Lemma loop_ignores_store (l a : nat) (w w' : world R) :
  trace w = trace w' ->
  fst (loop l a w) = fst (loop l a w')
  /\ trace (snd (loop l a w)) = trace (snd (loop l a w')).
Proof.
  revert a w w'. induction l as [|l IH]; intros a w w' Htr.
  - by rewrite !loop_O.
  - rewrite !loop_S, <- Htr.
    assert (Hnext : trace (after w [q; EvSleep delay])
                    = trace (after w' [q; EvSleep delay]))
      by (simpl; by rewrite Htr).
    destruct (judge (http net (requests (trace w)))) as [v|e|].
    + simpl. by rewrite Htr.
    + destruct (a =? maxAttempts)%nat; [simpl; by rewrite Htr | by apply IH].
    + by apply IH.
Qed.

End LoopStore.

(** X9: polling has no local precondition. The outcome of a poll session
    and the requests and sleeps it makes depend on the trace so far and on
    the remote only, not on the store: a name that was never deployed is
    polled like any other. The same holds for the status query. Both
    integrations. *)
Theorem polling_ignores_store (net : env) (maxAttempts : nat) (delay : Z)
    (modelName : string) :
  (forall w w' : world OpenShiftDeployment.deployment,
     trace w = trace w' ->
     fst (OpenShiftDeployment.poll net maxAttempts delay modelName w)
     = fst (OpenShiftDeployment.poll net maxAttempts delay modelName w')
     /\ trace (snd (OpenShiftDeployment.poll net maxAttempts delay modelName w))
        = trace (snd (OpenShiftDeployment.poll net maxAttempts delay modelName w'))
     /\ fst (OpenShiftDeployment.getDeploymentStatus net modelName w)
        = fst (OpenShiftDeployment.getDeploymentStatus net modelName w'))
  /\ (forall w w' : world RHODSIntegration.model,
        trace w = trace w' ->
        fst (RHODSIntegration.poll net maxAttempts delay modelName w)
        = fst (RHODSIntegration.poll net maxAttempts delay modelName w')
        /\ trace (snd (RHODSIntegration.poll net maxAttempts delay modelName w))
           = trace (snd (RHODSIntegration.poll net maxAttempts delay modelName w'))
        /\ fst (RHODSIntegration.getDeploymentStatus net modelName w)
           = fst (RHODSIntegration.getDeploymentStatus net modelName w')).
Proof.
  split; intros w w' Htr.
  - destruct (loop_ignores_store net (openshift_query modelName) delay maxAttempts
                openshift_verdict
                (OpenShiftDeployment.attempts net maxAttempts delay modelName)
                (fun _ _ => eq_refl)
                (fun l a w0 => openshift_loop_S net maxAttempts delay modelName l a w0)
                maxAttempts 1 w w' Htr) as [Hres Htrace].
    split; [exact Hres | split; [exact Htrace |]].
    rewrite !openshift_status_query. unfold reply. by rewrite Htr.
  - destruct (loop_ignores_store net (rhods_query modelName) delay maxAttempts
                rhods_verdict
                (RHODSIntegration.attempts net maxAttempts delay modelName)
                (fun _ _ => eq_refl)
                (fun l a w0 => rhods_loop_S net maxAttempts delay modelName l a w0)
                maxAttempts 1 w w' Htr) as [Hres Htrace].
    split; [exact Hres | split; [exact Htrace |]].
    rewrite !rhods_status_query. unfold reply. by rewrite Htr.
Qed.

(** A status poll of ["ghost-model"] on a new instance and on one that
    holds a record for ["m"]: neither has a record for the name, and
    both get the same answer. *)
Lemma polling_ignores_store_witness :
  trace (@fresh OpenShiftDeployment.deployment) = trace with_deployment
  /\ fst (OpenShiftDeployment.poll net_ready_third 3 5000 "ghost-model" fresh)
     = fst (OpenShiftDeployment.poll net_ready_third 3 5000 "ghost-model"
              with_deployment).
Proof.
  assert (H : trace (@fresh OpenShiftDeployment.deployment)
              = trace with_deployment) by reflexivity.
  split; [exact H|].
  exact (proj1 (proj1 (polling_ignores_store net_ready_third 3 5000 "ghost-model")
                  fresh with_deployment H)).
Defined.

(** ** Beyond the claims: the command line *)

Section CommandLine.
Context (net : env) (JSON_parse : string -> parsed)
  (cwd : list (string * entry)).

Lemma caught_returns {R} (m : M R unit) (w : world R) :
  exists w', try_catch m (fun _ => ret tt) w = (Ret tt, w').
Proof.
  unfold try_catch, ret. destruct (m w) as [[[]|e] w']; eauto.
Qed.

Lemma cli_infer_store (args : list string)
    (w : world OpenShiftDeployment.deployment) :
  store (snd (AIBuilderCLIWithOpenShift.runInference net JSON_parse args w))
  = store w.
Proof.
  unfold AIBuilderCLIWithOpenShift.runInference.
  destruct args as [|modelName dataArgs]; [reflexivity|].
  destruct (String.eqb modelName ""); [reflexivity|].
  pose proof (runInference_store net modelName
                (AIBuilderCLIWithOpenShift.parseInferenceData JSON_parse dataArgs) w)
    as Hstore.
  unfold try_catch, bind, ret.
  destruct (OpenShiftDeployment.runInference _ _ _ w) as [[v|e] w']; exact Hstore.
Qed.

Lemma cli_status_run (modelName : string) (rest : list string)
    (w : world OpenShiftDeployment.deployment) :
  modelName <> "" ->
  AIBuilderCLIWithOpenShift.getDeploymentStatus net (modelName :: rest) w
  = (Ret tt, after w [openshift_query modelName]).
Proof.
  intros Hname%String.eqb_neq.
  unfold AIBuilderCLIWithOpenShift.getDeploymentStatus. rewrite Hname.
  unfold try_catch, bind. rewrite openshift_status_query.
  unfold read, ret, show.
  destruct (get _ p_status) as [te|s]; [reflexivity|].
  destruct (to_string s); [reflexivity|].
  destruct (get _ p_endpoint) as [te|ep]; [reflexivity|].
  destruct (to_string (or_else ep _)); [reflexivity|].
  destruct (get _ p_error) as [te|e]; [reflexivity|].
  by destruct (to_string (or_else e _)).
Qed.

Lemma cli_status_store (args : list string)
    (w : world OpenShiftDeployment.deployment) :
  store (snd (AIBuilderCLIWithOpenShift.getDeploymentStatus net args w))
  = store w.
Proof.
  destruct args as [|modelName rest]; [reflexivity|].
  destruct (String.eqb_spec modelName "") as [->|Hname]; [reflexivity|].
  by rewrite cli_status_run.
Qed.

Lemma cli_init_store (args : list string)
    (w : world OpenShiftDeployment.deployment) :
  store (snd (AIBuilderCLIWithOpenShift.initOpenShift net args w)) = store w.
Proof.
  unfold AIBuilderCLIWithOpenShift.initOpenShift, OpenShiftDeployment.makeRequest,
    try_catch, bind, exchange, ret.
  by destruct (OpenShiftDeployment.settle _).
Qed.

End CommandLine.

(** X10: [execute] never throws, whatever the arguments and whatever the
    handler does; and no command other than [deploy-model] changes the
    store. *)
Theorem execute_never_throws (net : env) (JSON_parse : string -> parsed)
    (cwd : list (string * entry)) (args : list string)
    (w : world OpenShiftDeployment.deployment) :
  fst (AIBuilderCLIWithOpenShift.execute net JSON_parse cwd args w) = Ret tt
  /\ (head args <> Some "deploy-model" ->
      store (snd (AIBuilderCLIWithOpenShift.execute net JSON_parse cwd args w))
      = store w).
Proof.
  unfold AIBuilderCLIWithOpenShift.execute.
  destruct args as [|command commandArgs]; [by split|].
  destruct (String.eqb command "" || String.eqb command "--help"); [by split|].
  unfold AIBuilderCLIWithOpenShift.commands.
  destruct (String.eqb_spec command "deploy-model") as [->|_].
  { destruct (caught_returns
                (AIBuilderCLIWithOpenShift.deployModel net cwd commandArgs) w)
      as [w' ->]. by split. }
  destruct (String.eqb command "list-models").
  { unfold try_catch, AIBuilderCLIWithOpenShift.listModels.
    by destruct (bool_decide _). }
  destruct (String.eqb command "infer").
  { destruct (caught_returns
                (AIBuilderCLIWithOpenShift.runInference net JSON_parse commandArgs) w)
      as [w' Heq].
    rewrite Heq. split; [reflexivity|]. intros _.
    pose proof (cli_infer_store net JSON_parse commandArgs w) as Hstore.
    unfold try_catch in Heq.
    destruct (AIBuilderCLIWithOpenShift.runInference net JSON_parse commandArgs w)
      as [[[]|e] w'']; injection Heq as <-; exact Hstore. }
  destruct (String.eqb command "status").
  { destruct (caught_returns
                (AIBuilderCLIWithOpenShift.getDeploymentStatus net commandArgs) w)
      as [w' Heq].
    rewrite Heq. split; [reflexivity|]. intros _.
    pose proof (cli_status_store net commandArgs w) as Hstore.
    unfold try_catch in Heq at 1.
    destruct (AIBuilderCLIWithOpenShift.getDeploymentStatus net commandArgs w)
      as [[[]|e] w'']; injection Heq as <-; exact Hstore. }
  destruct (String.eqb command "init-openshift").
  { destruct (caught_returns
                (AIBuilderCLIWithOpenShift.initOpenShift net commandArgs) w)
      as [w' Heq].
    rewrite Heq. split; [reflexivity|]. intros _.
    pose proof (cli_init_store net commandArgs w) as Hstore.
    unfold try_catch in Heq at 1.
    destruct (AIBuilderCLIWithOpenShift.initOpenShift net commandArgs w)
      as [[[]|e] w'']; injection Heq as <-; exact Hstore. }
  destruct (String.eqb command "help"); by split.
Qed.

Lemma inference_without_record (net : env) (modelName : string) (data : value)
    (w : world OpenShiftDeployment.deployment) :
  store w !! modelName = None ->
  OpenShiftDeployment.runInference net modelName data w
  = (Throw (Error ("Model " +:+ modelName +:+ " not deployed")), w).
Proof.
  intros Hnone.
  unfold OpenShiftDeployment.runInference, OpenShiftDeployment.deployments_get,
    bind, try_catch, throw.
  by rewrite Hnone.
Qed.

Lemma execute_never_throws_witness :
  head ["infer"; "m"] <> Some "deploy-model"
  /\ store (snd (AIBuilderCLIWithOpenShift.execute net_500 no_json [] ["infer"; "m"]
                   with_deployment))
     = store with_deployment.
Proof.
  assert (H : head ["infer"; "m"] <> Some "deploy-model") by discriminate.
  split; [exact H|].
  exact (proj2 (execute_never_throws net_500 no_json [] ["infer"; "m"]
                  with_deployment) H).
Defined.

(** X11: run as a program, the script starts from an empty
    [deployments] map, so [infer] can never pass the local check: every
    command other than [deploy-model], [status] and [init-openshift] ends
    without a single request, whatever its arguments. *)
Theorem new_process_infer_never_requests (net : env)
    (JSON_parse : string -> parsed) (cwd : list (string * entry))
    (argv : list string) :
  head argv <> Some "deploy-model" ->
  head argv <> Some "status" ->
  head argv <> Some "init-openshift" ->
  AIBuilderCLIWithOpenShift.main net JSON_parse cwd argv = (Ret tt, fresh).
Proof.
  intros Hdeploy Hstatus Hinit.
  unfold AIBuilderCLIWithOpenShift.main, AIBuilderCLIWithOpenShift.execute.
  destruct argv as [|command commandArgs]; [reflexivity|].
  destruct (String.eqb command "" || String.eqb command "--help"); [reflexivity|].
  unfold AIBuilderCLIWithOpenShift.commands.
  destruct (String.eqb_spec command "deploy-model") as [->|_]; [done|].
  destruct (String.eqb command "list-models"); [reflexivity|].
  destruct (String.eqb command "infer").
  { unfold AIBuilderCLIWithOpenShift.runInference.
    destruct commandArgs as [|modelName dataArgs]; [reflexivity|].
    destruct (String.eqb modelName ""); [reflexivity|].
    unfold try_catch at 1 2, bind.
    by rewrite (inference_without_record net modelName _ fresh eq_refl). }
  destruct (String.eqb_spec command "status") as [->|_]; [done|].
  destruct (String.eqb_spec command "init-openshift") as [->|_]; [done|].
  destruct (String.eqb command "help"); reflexivity.
Qed.

Lemma new_process_infer_never_requests_witness :
  head ["infer"; "m"; "{}"] <> Some "deploy-model"
  /\ head ["infer"; "m"; "{}"] <> Some "status"
  /\ head ["infer"; "m"; "{}"] <> Some "init-openshift"
  /\ AIBuilderCLIWithOpenShift.main net_accepting no_json cwd_with_model
       ["infer"; "m"; "{}"]
     = (Ret tt, fresh).
Proof.
  assert (H1 : head ["infer"; "m"; "{}"] <> Some "deploy-model") by discriminate.
  assert (H2 : head ["infer"; "m"; "{}"] <> Some "status") by discriminate.
  assert (H3 : head ["infer"; "m"; "{}"] <> Some "init-openshift") by discriminate.
  split; [exact H1 | split; [exact H2 | split; [exact H3 |]]].
  exact (new_process_infer_never_requests net_accepting no_json cwd_with_model
           ["infer"; "m"; "{}"] H1 H2 H3).
Defined.

(** X12: [status <name>] issues exactly one request, the status query for
    that name, and ends normally whatever comes back, the body [null]
    included; without a name it issues none. *)
Theorem status_command_single_request (net : env)
    (JSON_parse : string -> parsed) (cwd : list (string * entry))
    (modelName : string) (rest : list string)
    (w : world OpenShiftDeployment.deployment) :
  modelName <> "" ->
  AIBuilderCLIWithOpenShift.execute net JSON_parse cwd
    ("status" :: modelName :: rest) w
  = (Ret tt, after w [openshift_query modelName])
  /\ AIBuilderCLIWithOpenShift.execute net JSON_parse cwd ["status"] w
     = (Ret tt, w).
Proof.
  intros Hname. split; [|reflexivity].
  change (AIBuilderCLIWithOpenShift.execute net JSON_parse cwd
            ("status" :: modelName :: rest) w)
    with (try_catch
            (AIBuilderCLIWithOpenShift.getDeploymentStatus net (modelName :: rest))
            (fun _ => ret tt) w).
  unfold try_catch at 1. by rewrite cli_status_run.
Qed.

Lemma status_command_single_request_witness :
  "m" <> ""
  /\ AIBuilderCLIWithOpenShift.execute net_null no_json [] ["status"; "m"] fresh
     = (Ret tt, after fresh [openshift_query "m"]).
Proof.
  assert (H : "m" <> "") by discriminate.
  split; [exact H|].
  exact (proj1 (status_command_single_request net_null no_json [] "m" [] fresh H)).
Defined.

(** ** Beyond the claims: model files *)

Lemma endsWith_refl (s : string) : endsWith s s = true.
Proof.
  destruct s; [reflexivity|]. cbn [endsWith]. by rewrite String.eqb_refl.
Qed.

Lemma endsWith_app (a s suffix : string) :
  endsWith s suffix = true -> endsWith (a +:+ s) suffix = true.
Proof.
  intros Hs. induction a as [|c a IH]; [exact Hs|].
  change (String c a +:+ s) with (String c (a +:+ s)).
  cbn [endsWith]. rewrite IH. apply orb_true_r.
Qed.

Lemma endsWith_path_join (dir item suffix : string) :
  endsWith item suffix = true -> endsWith (path_join dir item) suffix = true.
Proof.
  intros Hs. unfold path_join. destruct (String.eqb dir "."); [exact Hs|].
  apply endsWith_app. apply (endsWith_app "/"). exact Hs.
Qed.

Lemma endsWith_trans (a b c : string) :
  endsWith a b = true -> endsWith b c = true -> endsWith a c = true.
Proof.
  induction a as [|x a IH]; cbn [endsWith].
  - rewrite orb_false_r. intros <-%String.eqb_eq. done.
  - intros [<-%String.eqb_eq | Hab]%orb_true_iff Hbc.
    + exact Hbc.
    + rewrite (IH Hab Hbc). apply orb_true_r.
Qed.

Lemma scan_entry_dir (fullPath item : string) (sub : list (string * entry)) :
  AIBuilderCLIWithOpenShift.scan_entry fullPath item (Dir sub)
  = AIBuilderCLIWithOpenShift.scanDirectory fullPath sub.
Proof.
  simpl. induction sub as [|[item' e'] sub IH]; [reflexivity|].
  simpl. by rewrite IH.
Qed.

Lemma scan_entry_model_paths (e : entry) (fullPath item : string) :
  endsWith fullPath item = true ->
  Forall (fun p => exists ext, ext ∈ extensions /\ endsWith p ext = true)
    (AIBuilderCLIWithOpenShift.scan_entry fullPath item e).
Proof.
  revert e fullPath item. fix IH 1. intros [content|sub] fullPath item Hitem.
  - cbn [AIBuilderCLIWithOpenShift.scan_entry].
    destruct (existsb (endsWith item) extensions) eqn:Hext; [|constructor].
    apply existsb_exists in Hext as (ext & Hin & Hends).
    constructor; [|constructor]. exists ext. split.
    + by apply list_elem_of_In.
    + by apply (endsWith_trans _ item).
  - cbn [AIBuilderCLIWithOpenShift.scan_entry].
    induction sub as [|[item' e'] sub IHsub]; [constructor|].
    apply Forall_app. split; [|exact IHsub].
    apply IH, endsWith_path_join, endsWith_refl.
Qed.

(** X13: every path that [detectModelFiles] returns ends in one of the
    seven model extensions, at whatever depth below the working directory
    the file was found. *)
Theorem detectModelFiles_extensions (cwd : list (string * entry)) (p : string) :
  p ∈ AIBuilderCLIWithOpenShift.detectModelFiles cwd ->
  exists ext, ext ∈ extensions /\ endsWith p ext = true.
Proof.
  unfold AIBuilderCLIWithOpenShift.detectModelFiles. generalize ".".
  induction cwd as [|[item e] cwd IH]; intros dir Hp; simpl in Hp.
  - by apply elem_of_nil in Hp.
  - apply elem_of_app in Hp as [Hp|Hp]; [|by apply (IH dir)].
    pose proof (scan_entry_model_paths e (path_join dir item) item
                  (endsWith_path_join dir item item (endsWith_refl item))) as Hall.
    rewrite Forall_forall in Hall. by apply Hall.
Qed.

Lemma detectModelFiles_extensions_witness :
  "models/clf.pkl" ∈ AIBuilderCLIWithOpenShift.detectModelFiles cwd_with_model
  /\ exists ext, ext ∈ extensions /\ endsWith "models/clf.pkl" ext = true.
Proof.
  assert (H : "models/clf.pkl"
              ∈ AIBuilderCLIWithOpenShift.detectModelFiles cwd_with_model)
    by (vm_compute; apply list_elem_of_here).
  split; [exact H|].
  exact (detectModelFiles_extensions cwd_with_model "models/clf.pkl" H).
Defined.

Lemma bind_ret {R A B} (a : A) (k : A -> M R B) : bind (ret a) k = k a.
Proof. reflexivity. Qed.

Lemma cli_deploy_caught (net : env) (cfg : OpenShiftDeployment.modelConfig)
    (w : world OpenShiftDeployment.deployment) :
  try_catch
    (try_catch (OpenShiftDeployment.deployModel net cfg ;;; ret tt)
       (fun _ => ret tt))
    (fun _ => ret tt) w
  = (Ret tt, snd (OpenShiftDeployment.deployModel net cfg w)).
Proof.
  unfold try_catch, bind, ret.
  by destruct (OpenShiftDeployment.deployModel net cfg w) as [[v|e] w'].
Qed.

Ltac run_handler :=
  repeat first
    [ rewrite bind_ret; cbv beta
    | match goal with
      | |- context [if includes ?c ?n then _ else _] => destruct (includes c n)
      end ].

(** X14: the [deploy-model] command submits only when a model file is
    found below the working directory and [requirements.txt], if there
    is one, can be read. With no model file, or with a directory named
    [requirements.txt], it ends without a request; otherwise it runs
    [deployModel] for the given name and the first file found. *)
Theorem deploy_model_command (net : env) (JSON_parse : string -> parsed)
    (cwd : list (string * entry)) (rest : list string)
    (w : world OpenShiftDeployment.deployment) :
  (AIBuilderCLIWithOpenShift.detectModelFiles cwd = [] ->
   AIBuilderCLIWithOpenShift.execute net JSON_parse cwd ("deploy-model" :: rest) w
   = (Ret tt, w))
  /\ (forall items,
        lookup_item "requirements.txt" cwd = Some (Dir items) ->
        AIBuilderCLIWithOpenShift.execute net JSON_parse cwd
          ("deploy-model" :: rest) w
        = (Ret tt, w))
  /\ (forall modelName others first found,
        rest = modelName :: others ->
        modelName <> "" ->
        AIBuilderCLIWithOpenShift.detectModelFiles cwd = first :: found ->
        (forall items, lookup_item "requirements.txt" cwd <> Some (Dir items)) ->
        exists cfg,
          OpenShiftDeployment.name cfg = modelName
          /\ OpenShiftDeployment.modelPath cfg = VStr first
          /\ AIBuilderCLIWithOpenShift.execute net JSON_parse cwd
               ("deploy-model" :: rest) w
             = (Ret tt, snd (OpenShiftDeployment.deployModel net cfg w))).
Proof.
  change (AIBuilderCLIWithOpenShift.execute net JSON_parse cwd
            ("deploy-model" :: rest) w)
    with (try_catch (AIBuilderCLIWithOpenShift.deployModel net cwd rest)
            (fun _ => ret tt) w).
  unfold AIBuilderCLIWithOpenShift.deployModel,
    AIBuilderCLIWithOpenShift.detectFramework,
    AIBuilderCLIWithOpenShift.getRequirements.
  split; [|split].
  - intros ->. destruct rest as [|modelName others]; [reflexivity|].
    by destruct (String.eqb modelName "").
  - intros items ->. destruct rest as [|modelName others]; [reflexivity|].
    destruct (String.eqb modelName ""); [reflexivity|].
    by destruct (AIBuilderCLIWithOpenShift.detectModelFiles cwd).
  - intros modelName others first found -> Hname%String.eqb_neq -> Hreadable.
    rewrite Hname.
    destruct (lookup_item "requirements.txt" cwd) as [[content|items]|].
    + unfold AIBuilderCLIWithOpenShift.readRequirements.
      run_handler;
        (eexists; split; [|split]; revgoals;
         [apply cli_deploy_caught | reflexivity | reflexivity]).
    + by destruct (Hreadable items).
    + run_handler.
      eexists; split; [|split]; revgoals;
        [apply cli_deploy_caught | reflexivity | reflexivity].
Qed.

Lemma deploy_model_command_witness :
  AIBuilderCLIWithOpenShift.detectModelFiles cwd_without_model = []
  /\ AIBuilderCLIWithOpenShift.execute net_accepting no_json cwd_without_model
       ["deploy-model"; "m"] fresh
     = (Ret tt, fresh).
Proof.
  assert (H : AIBuilderCLIWithOpenShift.detectModelFiles cwd_without_model = [])
    by reflexivity.
  split; [exact H|].
  exact (proj1 (deploy_model_command net_accepting no_json cwd_without_model
                  ["m"] fresh) H).
Defined.
